(** * piton.py: PostgreSQL timestamptz decoding

    A shallow embedding of [src/piton.py] and of the parts of the Python
    standard library it calls ([datetime], [timedelta], [bytes.fromhex],
    [int.from_bytes]), followed by the properties of the two functions
    [postgres_timestamptz_to_datetime] and [hex_le_to_int64].

    Python integers are unbounded: they are modelled as [Z].  Floor division
    and modulus ([//], [%], [divmod]) with a positive divisor are [Z.div] and
    [Z.modulo].  A Python [str] is a sequence of Unicode code points and is
    modelled as a list of code points; [bytes] is a list of values in
    [0..255].  A raised exception is an explicit result. *)

From Stdlib Require Import ZArith NArith List Bool String Ascii Lia.
Import ListNotations.
Local Open Scope Z_scope.

(** ** Exceptions and results *)

Inductive exception : Type :=
| ValueError
| OverflowError
| TypeError.

Inductive result (A : Type) : Type :=
| Return (a : A)
| Raise (e : exception).

Arguments Return {A} a.
Arguments Raise {A} e.

Definition bind {A B : Type} (r : result A) (k : A -> result B) : result B :=
  match r with
  | Return a => k a
  | Raise e => Raise e
  end.

Notation "x <- r ;; k" := (bind r (fun x => k))
  (at level 61, r at next level, right associativity).
Notation "' pat <- r ;; k" := (bind r (fun pat => k))
  (at level 61, pat pattern, r at next level, right associativity).

(** [divmod a b] for ints, [b > 0]. *)
Definition divmod (a b : Z) : Z * Z := (a / b, a mod b).

(** ** The [datetime] module (Lib/datetime.py) *)

Module Datetime.

Definition MINYEAR : Z := 1.
Definition MAXYEAR : Z := 9999.
Definition _MAXORDINAL : Z := 3652059.

Definition _DAYS_IN_MONTH : list Z :=
  [-1; 31; 28; 31; 30; 31; 30; 31; 31; 30; 31; 30; 31].

(** The module-level loop
    [for dim in _DAYS_IN_MONTH[1:]:] with body
    [_DAYS_BEFORE_MONTH.append(dbm); dbm += dim]. *)
Fixpoint days_before_loop (dbm : Z) (dims : list Z) : list Z :=
  match dims with
  | [] => []
  | dim :: rest => dbm :: days_before_loop (dbm + dim) rest
  end.

Definition _DAYS_BEFORE_MONTH : list Z :=
  -1 :: days_before_loop 0 (tl _DAYS_IN_MONTH).

(** Indexing of the two month tables.  Every index the library uses is a
    month in [1..12] (lemma [ord2ymd_month_estimate] below for the one
    computed index), so the out-of-range default is never read. *)
Definition getitem (table : list Z) (i : Z) : Z := nth (Z.to_nat i) table 0.

Definition _is_leap (year : Z) : bool :=
  (year mod 4 =? 0) && (negb (year mod 100 =? 0) || (year mod 400 =? 0)).

Definition _days_before_year (year : Z) : Z :=
  let y := year - 1 in
  y * 365 + y / 4 - y / 100 + y / 400.

Definition _days_in_month (year month : Z) : Z :=
  if (month =? 2) && _is_leap year then 29
  else getitem _DAYS_IN_MONTH month.

Definition _days_before_month (year month : Z) : Z :=
  getitem _DAYS_BEFORE_MONTH month + Z.b2z ((month >? 2) && _is_leap year).

Definition _ymd2ord (year month day : Z) : Z :=
  _days_before_year year + _days_before_month year month + day.

Definition _DI400Y : Z := _days_before_year 401.
Definition _DI100Y : Z := _days_before_year 101.
Definition _DI4Y : Z := _days_before_year 5.

Definition _ord2ymd (n : Z) : Z * Z * Z :=
  let n := n - 1 in
  let '(n400, n) := divmod n _DI400Y in
  let year := n400 * 400 + 1 in
  let '(n100, n) := divmod n _DI100Y in
  let '(n4, n) := divmod n _DI4Y in
  let '(n1, n) := divmod n 365 in
  let year := year + (n100 * 100 + n4 * 4 + n1) in
  if (n1 =? 4) || (n100 =? 4) then (year - 1, 12, 31)
  else
    let leapyear := (n1 =? 3) && (negb (n4 =? 24) || (n100 =? 3)) in
    let month := Z.shiftr (n + 50) 5 in
    let preceding :=
      getitem _DAYS_BEFORE_MONTH month + Z.b2z ((month >? 2) && leapyear) in
    let '(month, preceding) :=
      if preceding >? n
      then (month - 1,
            preceding - (getitem _DAYS_IN_MONTH (month - 1)
                         + Z.b2z ((month - 1 =? 2) && leapyear)))
      else (month, preceding) in
    let n := n - preceding in
    (year, month, n + 1).

Definition _check_date_fields (year month day : Z) : result (Z * Z * Z) :=
  if negb ((MINYEAR <=? year) && (year <=? MAXYEAR)) then Raise ValueError
  else if negb ((1 <=? month) && (month <=? 12)) then Raise ValueError
  else
    let dim := _days_in_month year month in
    if negb ((1 <=? day) && (day <=? dim)) then Raise ValueError
    else Return (year, month, day).

Definition _check_time_fields (hour minute second microsecond : Z)
  : result (Z * Z * Z * Z) :=
  if negb ((0 <=? hour) && (hour <=? 23)) then Raise ValueError
  else if negb ((0 <=? minute) && (minute <=? 59)) then Raise ValueError
  else if negb ((0 <=? second) && (second <=? 59)) then Raise ValueError
  else if negb ((0 <=? microsecond) && (microsecond <=? 999999))
       then Raise ValueError
  else Return (hour, minute, second, microsecond).

(** *** timedelta *)

Record timedelta : Type := mk_timedelta {
  td_days : Z;
  td_seconds : Z;
  td_microseconds : Z
}.

(** [timedelta.__new__] on int arguments: the float branches are not taken,
    the fractional carries [daysecondsfrac], [secondsfrac] and [usdouble]
    are [0.0], and [round(microseconds + usdouble)] is [microseconds]. *)
Definition timedelta_new
  (days seconds microseconds milliseconds minutes hours weeks : Z)
  : result timedelta :=
  let days := days + weeks * 7 in
  let seconds := seconds + (minutes * 60 + hours * 3600) in
  let microseconds := microseconds + milliseconds * 1000 in
  let d := days in
  let s := 0 in
  let '(days, seconds) := divmod seconds (24 * 3600) in
  let d := d + days in
  let s := s + seconds in
  let '(seconds, microseconds) := divmod microseconds 1000000 in
  let '(days, seconds) := divmod seconds (24 * 3600) in
  let d := d + days in
  let s := s + seconds in
  let '(seconds, us) := divmod microseconds 1000000 in
  let s := s + seconds in
  let '(days, s) := divmod s (24 * 3600) in
  let d := d + days in
  if Z.abs d >? 999999999 then Raise OverflowError
  else Return (mk_timedelta d s us).

Definition timedelta_add (self other : timedelta) : result timedelta :=
  timedelta_new (td_days self + td_days other)
                (td_seconds self + td_seconds other)
                (td_microseconds self + td_microseconds other)
                0 0 0 0.

(** *** tzinfo, date, time, datetime *)

(** The only tzinfo object of the program is the singleton [timezone.utc]. *)
Inductive tzinfo : Type := utc.

Record date : Type := mk_date {
  d_year : Z;
  d_month : Z;
  d_day : Z
}.

Record time : Type := mk_time {
  t_hour : Z;
  t_minute : Z;
  t_second : Z;
  t_microsecond : Z;
  t_tzinfo : option tzinfo
}.

Record datetime : Type := mk_datetime {
  year : Z;
  month : Z;
  day : Z;
  hour : Z;
  minute : Z;
  second : Z;
  microsecond : Z;
  tz : option tzinfo
}.

Definition date_new (y m d : Z) : result date :=
  '(y, m, d) <- _check_date_fields y m d ;;
  Return (mk_date y m d).

Definition date_fromordinal (n : Z) : result date :=
  let '(y, m, d) := _ord2ymd n in
  date_new y m d.

Definition time_new (h mi s us : Z) (tzi : option tzinfo) : result time :=
  '(h, mi, s, us) <- _check_time_fields h mi s us ;;
  Return (mk_time h mi s us tzi).

Definition datetime_new (y m d h mi s us : Z) (tzi : option tzinfo)
  : result datetime :=
  '(y, m, d) <- _check_date_fields y m d ;;
  '(h, mi, s, us) <- _check_time_fields h mi s us ;;
  Return (mk_datetime y m d h mi s us tzi).

Definition datetime_combine (d : date) (t : time) : result datetime :=
  datetime_new (d_year d) (d_month d) (d_day d)
               (t_hour t) (t_minute t) (t_second t) (t_microsecond t)
               (t_tzinfo t).

Definition toordinal (self : datetime) : Z :=
  _ymd2ord (year self) (month self) (day self).

(** [datetime.__add__(self, other)] for a timedelta [other]. *)
Definition datetime_add (self : datetime) (other : timedelta)
  : result datetime :=
  delta <- timedelta_new (toordinal self) (second self) (microsecond self)
                         0 (minute self) (hour self) 0 ;;
  delta <- timedelta_add delta other ;;
  let '(hour, rem) := divmod (td_seconds delta) 3600 in
  let '(minute, second) := divmod rem 60 in
  if (0 <? td_days delta) && (td_days delta <=? _MAXORDINAL) then
    d <- date_fromordinal (td_days delta) ;;
    t <- time_new hour minute second (td_microseconds delta) (tz self) ;;
    datetime_combine d t
  else Raise OverflowError.

(** Comparison of int tuples of equal length, as [_cmp(x, y)] computes it:
    [0 if x == y else 1 if x > y else -1]. *)
Fixpoint tuple_cmp (x y : list Z) : Z :=
  match x, y with
  | a :: x', b :: y' =>
      if a =? b then tuple_cmp x' y' else if a >? b then 1 else -1
  | [], [] => 0
  | [], _ :: _ => -1
  | _ :: _, [] => 1
  end.

Definition tzinfo_is (a b : option tzinfo) : bool :=
  match a, b with
  | None, None => true
  | Some utc, Some utc => true
  | _, _ => false
  end.

(** [datetime._cmp(self, other)] with [allow_mixed=False].  When the two
    tzinfo objects are not the same object, one of them is [None] here (the
    other is [timezone.utc]), its utcoffset is [None] and the comparison
    raises TypeError. *)
Definition datetime_cmp (self other : datetime) : result Z :=
  if tzinfo_is (tz self) (tz other) then
    Return (tuple_cmp
              [year self; month self; day self; hour self; minute self;
               second self; microsecond self]
              [year other; month other; day other; hour other; minute other;
               second other; microsecond other])
  else Raise TypeError.

(** [datetime.__lt__]. *)
Definition datetime_lt (self other : datetime) : result bool :=
  c <- datetime_cmp self other ;;
  Return (c <? 0).

(** [datetime.min] and [datetime.max], the bounds of the timestamp type. *)
Definition datetime_min : datetime := mk_datetime 1 1 1 0 0 0 0 None.
Definition datetime_max : datetime :=
  mk_datetime 9999 12 31 23 59 59 999999 None.

End Datetime.

(** ** [str], [bytes] and [int] built-ins *)

Module Builtins.

(** A [str]: its code points, in order. *)
Definition str : Type := list N.

(** A str literal whose characters are all below U+0100. *)
Definition str_of (s : string) : str :=
  map N_of_ascii (list_ascii_of_string s).

Definition len {A : Type} (s : list A) : Z := Z.of_nat (List.length s).

(** [Py_ISSPACE]: the ASCII whitespace characters
    (tab, line feed, vertical tab, form feed, carriage return, space). *)
Definition Py_ISSPACE (c : N) : bool :=
  ((9 <=? c) && (c <=? 13) || (c =? 32))%N.

(** [_PyLong_DigitValue]: the value of an ASCII digit or letter as a digit in
    bases up to 36, and 37 for every other character. *)
Definition _PyLong_DigitValue (c : N) : Z :=
  if ((48 <=? c) && (c <=? 57))%N then Z.of_N c - 48
  else if ((97 <=? c) && (c <=? 122))%N then Z.of_N c - 97 + 10
  else if ((65 <=? c) && (c <=? 90))%N then Z.of_N c - 65 + 10
  else 37.

(** The scanning loop of [bytes.fromhex] ([_PyBytes_FromHex]): runs of ASCII
    whitespace are skipped before each pair of digits (not inside a pair);
    a character that is not a hex digit, or a pair cut short by the end of
    the string, raises ValueError.  (CPython 3.7 and later; earlier
    versions skip the space character only.) *)
Fixpoint fromhex_loop (s : str) : result (list Z) :=
  match s with
  | [] => Return []
  | c :: s1 =>
      if Py_ISSPACE c then fromhex_loop s1
      else
        let top := _PyLong_DigitValue c in
        if top >=? 16 then Raise ValueError
        else
          match s1 with
          | [] => Raise ValueError
          | c2 :: s2 =>
              let bot := _PyLong_DigitValue c2 in
              if bot >=? 16 then Raise ValueError
              else
                rest <- fromhex_loop s2 ;;
                Return ((Z.shiftl top 4 + bot) mod 256 :: rest)
          end
  end.

(** [bytes.fromhex(string)]: a string with a non-ASCII character is rejected
    before the scan. *)
Definition bytes_fromhex (s : str) : result (list Z) :=
  if existsb (fun c => (128 <=? c)%N) s then Raise ValueError
  else fromhex_loop s.

(** [sum(b << i*8 for i, b in enumerate(little_ordered))], from index [i]. *)
Fixpoint sum_shifted (i : Z) (little_ordered : list Z) : Z :=
  match little_ordered with
  | [] => 0
  | b :: rest => Z.shiftl b (i * 8) + sum_shifted (i + 1) rest
  end.

(** [int.from_bytes(bytes, byteorder='little', signed=signed)]. *)
Definition int_from_bytes_little (bytes : list Z) (signed : bool) : Z :=
  let little_ordered := bytes in
  let n := sum_shifted 0 little_ordered in
  if signed
     && negb (Nat.eqb (List.length little_ordered) 0)
     && negb (Z.land (last little_ordered 0) 128 =? 0)
  then n - Z.shiftl 1 (8 * len little_ordered)
  else n.

End Builtins.

(** ** src/piton.py *)

Import Datetime Builtins.

Definition postgres_timestamptz_to_datetime (int64_value : Z)
  : result datetime :=
  postgres_epoch <- datetime_new 2000 1 1 0 0 0 0 (Some utc) ;;
  delta <- timedelta_new 0 0 int64_value 0 0 0 0 ;;
  datetime_add postgres_epoch delta.

Definition hex_le_to_int64 (hex_str : str) : result Z :=
  if negb (len hex_str =? 16) then Raise ValueError
  else
    byte_data <- bytes_fromhex hex_str ;;
    Return (int_from_bytes_little byte_data true).

(** ** Vocabulary of the specification *)

(** A signed 64-bit integer. *)
Definition int64 (v : Z) : Prop := - 2 ^ 63 <= v <= 2 ^ 63 - 1.

(** A hexadecimal digit, in either case. *)
Definition is_hex_digit (c : N) : bool :=
  ((48 <=? c) && (c <=? 57) || (97 <=? c) && (c <=? 102)
   || (65 <=? c) && (c <=? 70))%N.

(** A valid token: exactly 16 characters, each a hexadecimal digit. *)
Definition valid_token (t : str) : Prop :=
  List.length t = 16%nat /\ forallb is_hex_digit t = true.

(** The instant a datetime denotes, in microseconds counted from the start
    of day 0 of the proleptic Gregorian ordinal numbering (the UTC offset of
    the program's datetimes is zero). *)
Definition instant (d : datetime) : Z :=
  (((toordinal d * 24 + hour d) * 60 + minute d) * 60 + second d) * 1000000
  + microsecond d.

(** A well-formed datetime: what the constructor's field checks accept. *)
Definition wf_datetime (d : datetime) : Prop :=
  MINYEAR <= year d <= MAXYEAR /\
  1 <= month d <= 12 /\
  1 <= day d <= _days_in_month (year d) (month d) /\
  0 <= hour d <= 23 /\ 0 <= minute d <= 59 /\ 0 <= second d <= 59 /\
  0 <= microsecond d <= 999999.

Definition postgres_epoch : datetime := mk_datetime 2000 1 1 0 0 0 0 (Some utc).

(** The instant [offset] microseconds after the PostgreSQL epoch is
    representable when it lies between [datetime.min] and [datetime.max]. *)
Definition representable (offset : Z) : Prop :=
  instant datetime_min <= instant postgres_epoch + offset
  <= instant datetime_max.

(** Modelled from the spec: the re-encoder of the round-trip law is not part
    of src/piton.py.  The spec re-encodes "as little-endian hex of the
    resulting signed 64-bit integer"; in Python that is
    [v.to_bytes(8, 'little', signed=True).hex()]: OverflowError outside the
    signed 64-bit range, otherwise byte [i] is [(v >> i*8) & 0xff] and each
    byte is printed as two lower-case hexadecimal digits, high nibble
    first. *)
Definition hexdigits : str := str_of "0123456789abcdef".

Definition hexdigit (d : Z) : N := nth (Z.to_nat d) hexdigits 0%N.

Fixpoint bytes_hex (bs : list Z) : str :=
  match bs with
  | [] => []
  | b :: rest =>
      hexdigit (Z.shiftr b 4) :: hexdigit (Z.land b 15) :: bytes_hex rest
  end.

(** Modelled from the spec: [v.to_bytes(8, 'little', signed=True)]. *)
Definition int64_to_bytes_le (v : Z) : result (list Z) :=
  if (- 2 ^ 63 <=? v) && (v <? 2 ^ 63)
  then Return (map (fun i => Z.land (Z.shiftr v (Z.of_nat i * 8)) 255)
                   (seq 0 8))
  else Raise OverflowError.

(** Modelled from the spec: the 16-character little-endian hex encoding of
    a signed 64-bit integer. *)
Definition int64_to_hex_le (v : Z) : result str :=
  bs <- int64_to_bytes_le v ;;
  Return (bytes_hex bs).

(** ASCII lower-casing of one character and of a token ([str.lower] on
    ASCII text). *)
Definition lower (c : N) : N :=
  if ((65 <=? c) && (c <=? 90))%N then (c + 32)%N else c.

Definition str_lower (t : str) : str := map lower t.

Definition is_upper (c : N) : bool := ((65 <=? c) && (c <=? 90))%N.

(** A byte value. *)
Definition byte_range (b : Z) : Prop := 0 <= b < 256.

(** The strings the scan of [bytes.fromhex] accepts: pairs of adjacent
    hexadecimal digits, with any number of ASCII whitespace characters
    before, between and after the pairs. *)
Inductive hex_pairs : str -> Prop :=
| hex_pairs_nil : hex_pairs []
| hex_pairs_space (c : N) (s : str) :
    Py_ISSPACE c = true -> hex_pairs s -> hex_pairs (c :: s)
| hex_pairs_pair (c1 c2 : N) (s : str) :
    is_hex_digit c1 = true -> is_hex_digit c2 = true ->
    hex_pairs s -> hex_pairs (c1 :: c2 :: s).

(** The value of character [i] of a token as a digit. *)
Definition digit_at (t : str) (i : nat) : Z :=
  _PyLong_DigitValue (nth i t 0%N).

(** ** Proof automation *)

(** [lia] after turning divisions and remainders into their equations. *)
Ltac zlia := Z.div_mod_to_equations; lia.

(** Case analysis on a month in [1..12]. *)
Ltac month_cases m :=
  let H := fresh in
  assert (H : m = 1 \/ m = 2 \/ m = 3 \/ m = 4 \/ m = 5 \/ m = 6 \/ m = 7
              \/ m = 8 \/ m = 9 \/ m = 10 \/ m = 11 \/ m = 12) by lia;
  repeat (destruct H as [H | H]); subst m.

(** Evaluates the reads of the month tables at literal indices. *)
Ltac table_values :=
  repeat match goal with
         | |- context [getitem ?t ?i] =>
             let v := eval vm_compute in (getitem t i) in
             change (getitem t i) with v
         end;
  cbn [Z.eqb Z.gtb Z.compare Pos.compare Pos.compare_cont Pos.eqb
       andb negb Z.b2z].

(** ** Auxiliary facts: ranges checked by enumeration *)

Lemma forallb_Zrange (p : Z -> bool) (n : nat) :
  forallb p (map Z.of_nat (seq 0 n)) = true ->
  forall k, 0 <= k < Z.of_nat n -> p k = true.
Proof.
  intros H k Hk.
  rewrite forallb_forall in H. apply H.
  apply in_map_iff. exists (Z.to_nat k). split; [lia|].
  apply in_seq. lia.
Qed.

Lemma forallb_Nrange (p : N -> bool) (n : nat) :
  forallb p (map N.of_nat (seq 0 n)) = true ->
  forall k, (k < N.of_nat n)%N -> p k = true.
Proof.
  intros H k Hk.
  rewrite forallb_forall in H. apply H.
  apply in_map_iff. exists (N.to_nat k). split; [lia|].
  apply in_seq. lia.
Qed.

(** ** The hex decoder *)

Lemma hex_digit_props (c : N) :
  is_hex_digit c = true ->
  Py_ISSPACE c = false /\
  (128 <=? c)%N = false /\
  0 <= _PyLong_DigitValue c < 16 /\
  hexdigit (_PyLong_DigitValue c) = lower c.
Proof.
  intros H.
  assert (Hc : (c < N.of_nat 103)%N).
  { unfold is_hex_digit in H.
    repeat match type of H with
           | context [N.leb ?a ?b] => destruct (N.leb_spec a b)
           end; simpl in H; try discriminate; lia. }
  revert H.
  pose (p := fun c : N =>
    implb (is_hex_digit c)
      (negb (Py_ISSPACE c) && negb (128 <=? c)%N
       && (0 <=? _PyLong_DigitValue c) && (_PyLong_DigitValue c <? 16)
       && (hexdigit (_PyLong_DigitValue c) =? lower c)%N)).
  assert (Hp : p c = true).
  { apply (forallb_Nrange p 103); [vm_compute; reflexivity | exact Hc]. }
  unfold p in Hp. intros H. rewrite H in Hp. simpl in Hp.
  repeat (apply andb_prop in Hp; destruct Hp as [Hp ?]).
  repeat split; try lia.
  - now destruct (Py_ISSPACE c).
  - now destruct (128 <=? c)%N.
  - now apply N.eqb_eq.
Qed.

Lemma non_hex_digit_value (c : N) :
  is_hex_digit c = false -> (_PyLong_DigitValue c >=? 16) = true.
Proof.
  intros H.
  destruct (N.lt_ge_cases c (N.of_nat 128)) as [Hc | Hc].
  - pose (p := fun c : N =>
      implb (negb (is_hex_digit c)) (_PyLong_DigitValue c >=? 16)).
    assert (Hp : p c = true).
    { apply (forallb_Nrange p 128); [vm_compute; reflexivity | exact Hc]. }
    unfold p in Hp. now rewrite H in Hp.
  - unfold _PyLong_DigitValue.
    repeat match goal with
           | |- context [N.leb ?a ?b] => destruct (N.leb_spec a b)
           end; simpl; try reflexivity; lia.
Qed.

Lemma shiftl4_add (top bot : Z) :
  0 <= top < 16 -> 0 <= bot < 16 ->
  (Z.shiftl top 4 + bot) mod 256 = 16 * top + bot.
Proof.
  intros Ht Hb. rewrite Z.shiftl_mul_pow2 by lia.
  change (2 ^ 4) with 16. rewrite Z.mod_small; lia.
Qed.

Lemma nibbles_of_byte (top bot : Z) :
  0 <= top < 16 -> 0 <= bot < 16 ->
  Z.shiftr (16 * top + bot) 4 = top /\ Z.land (16 * top + bot) 15 = bot.
Proof.
  intros Ht Hb. split.
  - rewrite Z.shiftr_div_pow2 by lia. change (2 ^ 4) with 16.
    symmetry. apply (Z.div_unique _ 16 top bot); lia.
  - change 15 with (Z.ones 4). rewrite Z.land_ones by lia.
    change (2 ^ 4) with 16.
    symmetry. apply (Z.mod_unique _ 16 top bot); lia.
Qed.

(** What a successful scan returns: at most one byte per two characters,
    each byte in [0..255]. *)
Lemma fromhex_loop_bytes (s : str) (bs : list Z) :
  fromhex_loop s = Return bs ->
  (2 * List.length bs <= List.length s)%nat /\ Forall byte_range bs.
Proof.
  enough (G : forall n (s : str) bs,
             (List.length s <= n)%nat -> fromhex_loop s = Return bs ->
             (2 * List.length bs <= List.length s)%nat /\ Forall byte_range bs)
    by (apply (G (List.length s)); lia).
  clear s bs.
  induction n as [|n IH]; intros s bs Hle H.
  - destruct s; simpl in Hle; [|lia].
    simpl in H. injection H as <-. split; [simpl; lia | constructor].
  - destruct s as [|c s1]; simpl in H.
    + injection H as <-. split; [simpl; lia | constructor].
    + simpl in Hle.
      destruct (Py_ISSPACE c).
      * destruct (IH s1 bs ltac:(lia) H) as [H1 H2].
        split; [simpl; lia | exact H2].
      * destruct (_PyLong_DigitValue c >=? 16); [discriminate|].
        destruct s1 as [|c2 s2]; [discriminate|].
        destruct (_PyLong_DigitValue c2 >=? 16); [discriminate|].
        destruct (fromhex_loop s2) as [rest|e] eqn:Hrest;
          simpl in H; [|discriminate].
        injection H as <-. simpl in Hle.
        destruct (IH s2 rest ltac:(lia) Hrest) as [H1 H2].
        split; [simpl; lia|].
        constructor; [|exact H2].
        unfold byte_range. apply Z.mod_pos_bound. lia.
Qed.

(** On a string of hexadecimal digits of even length the scan succeeds, with
    one byte per two characters, and printing the bytes back in lower-case
    hexadecimal gives the string lower-cased. *)
Lemma fromhex_loop_hex_digits (n : nat) :
  forall t : str,
    List.length t = (2 * n)%nat ->
    forallb is_hex_digit t = true ->
    exists bs,
      fromhex_loop t = Return bs /\
      List.length bs = n /\
      Forall byte_range bs /\
      bytes_hex bs = str_lower t.
Proof.
  induction n as [|n IH]; intros t Hlen Hhex.
  - destruct t; [|discriminate]. exists []. repeat split. constructor.
  - destruct t as [|c1 [|c2 t]]; try (simpl in Hlen; lia).
    simpl in Hhex.
    apply andb_prop in Hhex. destruct Hhex as [H1 Hhex].
    apply andb_prop in Hhex. destruct Hhex as [H2 Hhex].
    destruct (hex_digit_props c1 H1) as (Hs1 & _ & Hd1 & Hl1).
    destruct (hex_digit_props c2 H2) as (_ & _ & Hd2 & Hl2).
    destruct (IH t ltac:(simpl in Hlen; lia) Hhex) as (bs & Hbs & Hn & Hr & Hx).
    exists (16 * _PyLong_DigitValue c1 + _PyLong_DigitValue c2 :: bs).
    repeat split.
    + cbn [fromhex_loop]. rewrite Hs1.
      destruct (Z.geb_spec (_PyLong_DigitValue c1) 16); [lia|].
      destruct (Z.geb_spec (_PyLong_DigitValue c2) 16); [lia|].
      rewrite Hbs. cbn [bind]. now rewrite shiftl4_add.
    + simpl. now rewrite Hn.
    + constructor; [unfold byte_range; lia | exact Hr].
    + cbn [bytes_hex str_lower map].
      destruct (nibbles_of_byte _ _ Hd1 Hd2) as [-> ->].
      now rewrite Hl1, Hl2, Hx.
Qed.

Lemma hex_digits_ascii (t : str) :
  forallb is_hex_digit t = true ->
  existsb (fun c => (128 <=? c)%N) t = false.
Proof.
  induction t as [|c t IH]; intros H; [reflexivity|].
  simpl in H. apply andb_prop in H. destruct H as [Hc Ht].
  simpl. destruct (hex_digit_props c Hc) as (_ & -> & _).
  now apply IH.
Qed.

(** [sum(b << i*8 ...)] started at index [i] is the sum started at 0,
    shifted by [i] bytes. *)
Lemma sum_shifted_cons (b : Z) (bs : list Z) :
  sum_shifted 0 (b :: bs) = b + 256 * sum_shifted 0 bs.
Proof.
  assert (G : forall l i, 0 <= i ->
             sum_shifted (i + 1) l = 256 * sum_shifted i l).
  { induction l as [|a l IH]; intros i Hi; cbn [sum_shifted]; [lia|].
    rewrite IH by lia.
    rewrite !Z.shiftl_mul_pow2 by lia.
    replace ((i + 1) * 8) with (i * 8 + 8) by lia.
    rewrite Z.pow_add_r by lia. change (2 ^ 8) with 256. lia. }
  cbn [sum_shifted]. rewrite (G bs 0) by lia.
  rewrite Z.shiftl_mul_pow2 by lia. change (2 ^ (0 * 8)) with 1. lia.
Qed.

Lemma pow2_bytes_succ (n : nat) :
  2 ^ (8 * Z.of_nat (S n)) = 256 * 2 ^ (8 * Z.of_nat n).
Proof.
  replace (8 * Z.of_nat (S n)) with (8 + 8 * Z.of_nat n) by lia.
  rewrite Z.pow_add_r by lia. reflexivity.
Qed.

Lemma sum_shifted_range (bs : list Z) :
  Forall byte_range bs ->
  0 <= sum_shifted 0 bs < 2 ^ (8 * Z.of_nat (List.length bs)).
Proof.
  induction 1 as [|b bs Hb _ IH].
  - simpl. lia.
  - rewrite sum_shifted_cons. cbn [List.length]. rewrite pow2_bytes_succ.
    unfold byte_range in Hb. lia.
Qed.

(** The last byte decides in which half of the unsigned range the sum
    lies. *)
Lemma sum_shifted_last (bs : list Z) :
  Forall byte_range bs -> bs <> [] ->
  2 ^ (8 * Z.of_nat (List.length bs - 1)) * last bs 0 <= sum_shifted 0 bs
  < 2 ^ (8 * Z.of_nat (List.length bs - 1)) * (last bs 0 + 1).
Proof.
  induction 1 as [|b bs Hb Hbs IH]; intros Hne; [congruence|].
  rewrite sum_shifted_cons.
  destruct bs as [|b' bs'].
  - change (2 ^ (8 * Z.of_nat (List.length [b] - 1))) with 1.
    cbn [last sum_shifted]. lia.
  - specialize (IH ltac:(discriminate)).
    change (last (b :: b' :: bs') 0) with (last (b' :: bs') 0).
    replace (List.length (b :: b' :: bs') - 1)%nat
      with (S (List.length (b' :: bs') - 1)) by (simpl; lia).
    rewrite pow2_bytes_succ.
    unfold byte_range in Hb. lia.
Qed.

Lemma land_128 (l : Z) :
  byte_range l -> (Z.land l 128 =? 0) = (l <? 128).
Proof.
  intros Hl.
  pose (p := fun l => Bool.eqb (Z.land l 128 =? 0) (l <? 128)).
  assert (Hp : p l = true).
  { apply (forallb_Zrange p 256); [vm_compute; reflexivity | exact Hl]. }
  now apply Bool.eqb_prop.
Qed.

Lemma last_byte_range (bs : list Z) :
  Forall byte_range bs -> bs <> [] -> byte_range (last bs 0).
Proof.
  intros H Hne. rewrite Forall_forall in H. apply H.
  destruct (exists_last Hne) as (l & a & ->).
  rewrite last_last. apply in_or_app. right. now left.
Qed.

(** Range of [int.from_bytes(..., 'little', signed=True)] on [n] bytes. *)
Lemma int_from_bytes_signed_range (bs : list Z) :
  Forall byte_range bs -> bs <> [] ->
  - 2 ^ (8 * Z.of_nat (List.length bs) - 1)
  <= int_from_bytes_little bs true
  < 2 ^ (8 * Z.of_nat (List.length bs) - 1).
Proof.
  intros Hb Hne.
  pose proof (sum_shifted_range bs Hb) as Hr.
  pose proof (sum_shifted_last bs Hb Hne) as Hl.
  pose proof (last_byte_range bs Hb Hne) as Hlr.
  unfold int_from_bytes_little, len.
  destruct bs as [|b0 bs0] eqn:E; [congruence|]. rewrite <- E in *.
  assert (Hlen : (1 <= List.length bs)%nat) by (subst bs; simpl; lia).
  replace (Nat.eqb (List.length bs) 0) with false
    by (symmetry; apply Nat.eqb_neq; lia).
  rewrite land_128 by exact Hlr.
  rewrite Z.shiftl_mul_pow2, Z.mul_1_l by lia.
  set (k := (List.length bs - 1)%nat) in *.
  replace (List.length bs) with (S k) in * by lia.
  rewrite pow2_bytes_succ in *.
  replace (8 * Z.of_nat (S k) - 1) with (7 + 8 * Z.of_nat k) by lia.
  rewrite Z.pow_add_r by lia. change (2 ^ 7) with 128.
  assert (0 < 2 ^ (8 * Z.of_nat k)) by (apply Z.pow_pos_nonneg; lia).
  unfold byte_range in Hlr.
  cbn [andb negb].
  destruct (Z.ltb_spec (last bs 0) 128); cbn [negb]; nia.
Qed.

(** Byte [i] of the little-endian sum, also after adding a multiple of
    [2^(8*len)] (the two's-complement adjustment). *)
Lemma sum_shifted_byte (bs : list Z) :
  Forall byte_range bs ->
  forall (i : nat) (k : Z),
    (i < List.length bs)%nat ->
    ((sum_shifted 0 bs + k * 2 ^ (8 * Z.of_nat (List.length bs)))
       / 2 ^ (8 * Z.of_nat i)) mod 256
    = nth i bs 0.
Proof.
  induction 1 as [|b bs Hb _ IH]; intros i k Hi; [simpl in Hi; lia|].
  rewrite sum_shifted_cons. cbn [List.length]. rewrite pow2_bytes_succ.
  set (W := 2 ^ (8 * Z.of_nat (List.length bs))).
  replace (b + 256 * sum_shifted 0 bs + k * (256 * W))
    with (b + (sum_shifted 0 bs + k * W) * 256) by lia.
  unfold byte_range in Hb.
  destruct i as [|j].
  - change (2 ^ (8 * Z.of_nat 0)) with 1. rewrite Z.div_1_r.
    rewrite Z.mod_add by lia. now apply Z.mod_small.
  - rewrite pow2_bytes_succ.
    assert (0 < 2 ^ (8 * Z.of_nat j)) by (apply Z.pow_pos_nonneg; lia).
    rewrite <- Z.div_div by lia.
    rewrite Z.div_add by lia. rewrite (Z.div_small b 256) by lia.
    cbn [nth Z.add]. apply IH. simpl in Hi. lia.
Qed.

Lemma byte_extract (v : Z) (i : nat) :
  Z.land (Z.shiftr v (Z.of_nat i * 8)) 255
  = (v / 2 ^ (8 * Z.of_nat i)) mod 256.
Proof.
  rewrite Z.shiftr_div_pow2 by lia.
  change 255 with (Z.ones 8). rewrite Z.land_ones by lia.
  now rewrite (Z.mul_comm (Z.of_nat i) 8).
Qed.

(** Encoding the signed value of eight bytes gives the eight bytes back. *)
Lemma int64_to_bytes_from_bytes (bs : list Z) :
  Forall byte_range bs -> List.length bs = 8%nat ->
  int64_to_bytes_le (int_from_bytes_little bs true) = Return bs.
Proof.
  intros Hb Hlen.
  assert (Hne : bs <> []) by (intros ->; discriminate).
  pose proof (int_from_bytes_signed_range bs Hb Hne) as Hr.
  rewrite Hlen in Hr. change (8 * Z.of_nat 8 - 1) with 63 in Hr.
  unfold int64_to_bytes_le.
  destruct (Z.leb_spec (- 2 ^ 63) (int_from_bytes_little bs true)); [|lia].
  destruct (Z.ltb_spec (int_from_bytes_little bs true) (2 ^ 63)); [|lia].
  cbn [andb]. f_equal.
  assert (Hv : exists k, int_from_bytes_little bs true
                         = sum_shifted 0 bs
                           + k * 2 ^ (8 * Z.of_nat (List.length bs))).
  { unfold int_from_bytes_little, len.
    rewrite Z.shiftl_mul_pow2, Z.mul_1_l by lia.
    match goal with |- context [if ?c then _ else _] => destruct c end;
      [exists (-1) | exists 0]; lia. }
  destruct Hv as [k ->].
  set (f := fun i : nat => Z.land (Z.shiftr _ (Z.of_nat i * 8)) 255).
  apply (nth_ext _ _ (f 0%nat) 0).
  - rewrite length_map, length_seq. now rewrite Hlen.
  - intros i Hi. rewrite length_map, length_seq in Hi.
    rewrite map_nth, seq_nth by exact Hi. cbn [Nat.add]. unfold f.
    rewrite byte_extract. apply sum_shifted_byte; [exact Hb | lia].
Qed.

Lemma str_lower_no_upper (t : str) :
  forallb (fun c => negb (is_upper c)) t = true -> str_lower t = t.
Proof.
  induction t as [|c t IH]; intros H; [reflexivity|].
  simpl in H. apply andb_prop in H. destruct H as [Hc Ht].
  cbn [str_lower map]. fold (str_lower t). rewrite (IH Ht).
  unfold lower. unfold is_upper in Hc.
  destruct ((65 <=? c) && (c <=? 90))%N; [discriminate | reflexivity].
Qed.

(** On a valid token the decoder succeeds and returns the signed value of
    the eight bytes the token spells. *)
Lemma hex_le_to_int64_valid (t : str) :
  valid_token t ->
  exists bs,
    List.length bs = 8%nat /\ Forall byte_range bs /\
    bytes_hex bs = str_lower t /\
    hex_le_to_int64 t = Return (int_from_bytes_little bs true).
Proof.
  intros [Hlen Hhex].
  destruct (fromhex_loop_hex_digits 8 t Hlen Hhex) as (bs & Hs & Hn & Hb & Hx).
  exists bs. repeat split; try assumption.
  unfold hex_le_to_int64, bytes_fromhex, len.
  rewrite Hlen. cbn [Z.of_nat Z.eqb Pos.eqb negb Pos.of_succ_nat Pos.succ].
  rewrite (hex_digits_ascii t Hhex), Hs. reflexivity.
Qed.

(** A character that is neither a hexadecimal digit nor ASCII whitespace
    stops the scan with ValueError, wherever it stands. *)
Lemma fromhex_loop_rejects (s : str) :
  (exists c, In c s /\ is_hex_digit c = false /\ Py_ISSPACE c = false) ->
  fromhex_loop s = Raise ValueError.
Proof.
  enough (G : forall n (s : str),
             (List.length s <= n)%nat ->
             (exists c, In c s /\ is_hex_digit c = false
                        /\ Py_ISSPACE c = false) ->
             fromhex_loop s = Raise ValueError)
    by (apply (G (List.length s)); lia).
  clear s.
  induction n as [|n IH]; intros s Hle (c & Hin & Hh & Hs).
  - destruct s; [destruct Hin | simpl in Hle; lia].
  - destruct s as [|c0 s1]; [destruct Hin|].
    simpl in Hle. cbn [fromhex_loop].
    destruct (Py_ISSPACE c0) eqn:Hs0.
    + apply IH; [lia|]. exists c. repeat split; try assumption.
      destruct Hin as [-> | Hin]; [congruence | exact Hin].
    + destruct (_PyLong_DigitValue c0 >=? 16) eqn:Hd0; [reflexivity|].
      assert (Hin1 : In c s1).
      { destruct Hin as [-> | Hin]; [|exact Hin].
        rewrite (non_hex_digit_value c Hh) in Hd0. discriminate. }
      destruct s1 as [|c2 s2]; [destruct Hin1|].
      destruct (_PyLong_DigitValue c2 >=? 16) eqn:Hd2; [reflexivity|].
      assert (Hin2 : In c s2).
      { destruct Hin1 as [-> | Hin1]; [|exact Hin1].
        rewrite (non_hex_digit_value c Hh) in Hd2. discriminate. }
      simpl in Hle.
      rewrite (IH s2 ltac:(lia)); [reflexivity|].
      exists c. now repeat split.
Qed.

(** X2: a string that contains a character that is neither a hexadecimal
    digit nor ASCII whitespace is rejected with ValueError, wherever the
    character stands and whatever the length of the string. *)
Lemma hex_le_to_int64_rejects (t : str) :
  (exists c, In c t /\ is_hex_digit c = false /\ Py_ISSPACE c = false) ->
  hex_le_to_int64 t = Raise ValueError.
Proof.
  intros H. unfold hex_le_to_int64, bytes_fromhex.
  destruct (negb (len t =? 16)); [reflexivity|].
  destruct (existsb _ t); [reflexivity|].
  now rewrite (fromhex_loop_rejects t H).
Qed.

(** ** The calendar arithmetic of the datetime module *)

(** The assertions of [_ord2ymd] on the month estimate: for a day offset
    [r] within a year, [(r + 50) >> 5] is a month in [1..12], either exact
    or one too large; after the correction the month is in [1..12],
    [preceding] is the number of days before it, and the remaining offset
    is within the month. *)
Lemma ord2ymd_month_estimate (leap : bool) (r : Z) :
  0 <= r <= 364 ->
  let month := Z.shiftr (r + 50) 5 in
  let preceding :=
    getitem _DAYS_BEFORE_MONTH month + Z.b2z ((month >? 2) && leap) in
  let mp :=
    if preceding >? r
    then (month - 1,
          preceding - (getitem _DAYS_IN_MONTH (month - 1)
                       + Z.b2z ((month - 1 =? 2) && leap)))
    else (month, preceding) in
  1 <= month <= 12 /\
  1 <= fst mp <= 12 /\
  snd mp = getitem _DAYS_BEFORE_MONTH (fst mp)
           + Z.b2z ((fst mp >? 2) && leap) /\
  0 <= r - snd mp
  < (if (fst mp =? 2) && leap then 29 else getitem _DAYS_IN_MONTH (fst mp)).
Proof.
  intros Hr.
  pose (chk := fun (leap : bool) (r : Z) =>
    let month := Z.shiftr (r + 50) 5 in
    let preceding :=
      getitem _DAYS_BEFORE_MONTH month + Z.b2z ((month >? 2) && leap) in
    let mp :=
      if preceding >? r
      then (month - 1,
            preceding - (getitem _DAYS_IN_MONTH (month - 1)
                         + Z.b2z ((month - 1 =? 2) && leap)))
      else (month, preceding) in
    (1 <=? month) && (month <=? 12) &&
    (1 <=? fst mp) && (fst mp <=? 12) &&
    (snd mp =? getitem _DAYS_BEFORE_MONTH (fst mp)
               + Z.b2z ((fst mp >? 2) && leap)) &&
    (0 <=? r - snd mp) &&
    (r - snd mp
     <? (if (fst mp =? 2) && leap then 29
         else getitem _DAYS_IN_MONTH (fst mp)))).
  assert (Hc : chk leap r = true).
  { destruct leap;
      (apply (forallb_Zrange (chk _) 365); [vm_compute; reflexivity | lia]). }
  unfold chk in Hc. cbv zeta in Hc |- *.
  repeat (apply andb_prop in Hc; destruct Hc as [Hc ?]).
  repeat match goal with
         | H : (_ <=? _) = true |- _ => apply Z.leb_le in H
         | H : (_ <? _) = true |- _ => apply Z.ltb_lt in H
         | H : (_ =? _) = true |- _ => apply Z.eqb_eq in H
         end.
  repeat split; assumption.
Qed.

(** The year arithmetic of [_ord2ymd]: with [n - 1] split into 400-year,
    100-year, 4-year and 1-year cycles, the days before the computed year
    and its leap status are what [_ord2ymd] takes them to be (its assertion
    [leapyear == _is_leap(year)]), also on the last day of a cycle, where
    the remaining offset is zero (its assertion [n == 0]). *)
Lemma ord2ymd_year (n : Z) :
  forall n400 r1 n100 r2 n4 r3 n1 r4,
  n - 1 = 146097 * n400 + r1 -> 0 <= r1 < 146097 ->
  r1 = 36524 * n100 + r2 -> 0 <= r2 < 36524 ->
  r2 = 1461 * n4 + r3 -> 0 <= r3 < 1461 ->
  r3 = 365 * n1 + r4 -> 0 <= r4 < 365 ->
  let y := n400 * 400 + 1 + (n100 * 100 + n4 * 4 + n1) in
  (n1 <> 4 -> n100 <> 4 ->
   _days_before_year y = n - 1 - r4 /\
   _is_leap y = (n1 =? 3) && (negb (n4 =? 24) || (n100 =? 3))) /\
  (n1 = 4 \/ n100 = 4 ->
   r4 = 0 /\
   _days_before_year (y - 1) = n - 366 /\ _is_leap (y - 1) = true) /\
  (1 <= n <= _MAXORDINAL ->
   MINYEAR <= (if (n1 =? 4) || (n100 =? 4) then y - 1 else y) <= MAXYEAR).
Proof.
  intros. subst y.
  unfold _days_before_year, _is_leap, _MAXORDINAL, MINYEAR, MAXYEAR.
  repeat split.
  - zlia.
  - destruct (Z.eqb_spec n1 3), (Z.eqb_spec n4 24), (Z.eqb_spec n100 3);
      cbn [negb orb andb];
      repeat match goal with
             | |- context [Z.eqb ?a ?b] => destruct (Z.eqb_spec a b)
             end; cbn [negb orb andb]; try reflexivity; exfalso; zlia.
  - lia.
  - zlia.
  - repeat match goal with
           | |- context [Z.eqb ?a ?b] => destruct (Z.eqb_spec a b)
           end; cbn [negb orb andb]; try reflexivity; exfalso; zlia.
  - destruct (Z.eqb_spec n1 4), (Z.eqb_spec n100 4); cbn [orb]; lia.
  - destruct (Z.eqb_spec n1 4), (Z.eqb_spec n100 4); cbn [orb]; lia.
Qed.

(** [_ord2ymd] returns a date of the calendar, and [_ymd2ord] maps it back to
    the ordinal; ordinals [1.._MAXORDINAL] give years [MINYEAR..MAXYEAR]. *)
Lemma ord2ymd_spec (n y m d : Z) :
  _ord2ymd n = (y, m, d) ->
  1 <= m <= 12 /\
  1 <= d <= _days_in_month y m /\
  _ymd2ord y m d = n /\
  (1 <= n <= _MAXORDINAL -> MINYEAR <= y <= MAXYEAR).
Proof.
  unfold _ord2ymd, divmod.
  change _DI400Y with 146097. change _DI100Y with 36524.
  change _DI4Y with 1461.
  pose proof (Z.div_mod (n - 1) 146097 ltac:(lia)) as E1.
  pose proof (Z.mod_pos_bound (n - 1) 146097 ltac:(lia)) as B1.
  set (n400 := (n - 1) / 146097) in *.
  set (r1 := (n - 1) mod 146097) in *.
  pose proof (Z.div_mod r1 36524 ltac:(lia)) as E2.
  pose proof (Z.mod_pos_bound r1 36524 ltac:(lia)) as B2.
  set (n100 := r1 / 36524) in *. set (r2 := r1 mod 36524) in *.
  pose proof (Z.div_mod r2 1461 ltac:(lia)) as E3.
  pose proof (Z.mod_pos_bound r2 1461 ltac:(lia)) as B3.
  set (n4 := r2 / 1461) in *. set (r3 := r2 mod 1461) in *.
  pose proof (Z.div_mod r3 365 ltac:(lia)) as E4.
  pose proof (Z.mod_pos_bound r3 365 ltac:(lia)) as B4.
  set (n1 := r3 / 365) in *. set (r4 := r3 mod 365) in *.
  clearbody n400 r1 n100 r2 n4 r3 n1 r4.
  destruct (ord2ymd_year n n400 r1 n100 r2 n4 r3 n1 r4 E1 B1 E2 B2 E3 B3 E4 B4)
    as (Hnorm & Hlast & Hyear).
  destruct ((n1 =? 4) || (n100 =? 4)) eqn:Hend.
  - intros [= <- <- <-].
    destruct Hlast as (_ & Hd & Hl).
    { apply orb_prop in Hend.
      destruct Hend as [H|H]; apply Z.eqb_eq in H; auto. }
    unfold _ymd2ord, _days_in_month, _days_before_month.
    rewrite Hd, Hl.
    change ((12 =? 2) && true) with false.
    change (Z.b2z ((12 >? 2) && true)) with 1.
    change (getitem _DAYS_IN_MONTH 12) with 31.
    change (getitem _DAYS_BEFORE_MONTH 12) with 334.
    cbv iota. repeat split; solve [lia | exact Hyear].
  - apply orb_false_elim in Hend. destruct Hend as [H1 H2].
    apply Z.eqb_neq in H1, H2.
    destruct (Hnorm H1 H2) as [Hd Hl].
    set (leap := (n1 =? 3) && (negb (n4 =? 24) || (n100 =? 3))) in *.
    pose proof (ord2ymd_month_estimate leap r4 ltac:(lia)) as Hm.
    cbv zeta in Hm.
    match type of Hm with
    | context [fst ?mp] => destruct mp as [m' p'] eqn:Emp
    end.
    cbn [fst snd] in Hm. destruct Hm as (_ & Hm1 & Hp & Hr).
    intros [= <- <- <-].
    unfold _ymd2ord, _days_in_month, _days_before_month.
    rewrite Hd, Hl. repeat split; solve [lia | exact Hyear].
Qed.

Lemma check_date_fields_ok (y m d : Z) :
  MINYEAR <= y <= MAXYEAR -> 1 <= m <= 12 -> 1 <= d <= _days_in_month y m ->
  _check_date_fields y m d = Return (y, m, d).
Proof.
  intros Hy Hm Hd. unfold _check_date_fields.
  destruct (Z.leb_spec MINYEAR y); [|lia].
  destruct (Z.leb_spec y MAXYEAR); [|lia].
  destruct (Z.leb_spec 1 m); [|lia].
  destruct (Z.leb_spec m 12); [|lia].
  destruct (Z.leb_spec 1 d); [|lia].
  destruct (Z.leb_spec d (_days_in_month y m)); [|lia].
  reflexivity.
Qed.

Lemma check_time_fields_ok (h mi s us : Z) :
  0 <= h <= 23 -> 0 <= mi <= 59 -> 0 <= s <= 59 -> 0 <= us <= 999999 ->
  _check_time_fields h mi s us = Return (h, mi, s, us).
Proof.
  intros Hh Hmi Hs Hus. unfold _check_time_fields.
  destruct (Z.leb_spec 0 h); [|lia]. destruct (Z.leb_spec h 23); [|lia].
  destruct (Z.leb_spec 0 mi); [|lia]. destruct (Z.leb_spec mi 59); [|lia].
  destruct (Z.leb_spec 0 s); [|lia]. destruct (Z.leb_spec s 59); [|lia].
  destruct (Z.leb_spec 0 us); [|lia].
  destruct (Z.leb_spec us 999999); [|lia].
  reflexivity.
Qed.

(** [timedelta(days=d, seconds=s, microseconds=us)] in terms of the total
    number of microseconds. *)
Lemma timedelta_new_total (d s us : Z) :
  let total := (d * 86400 + s) * 1000000 + us in
  timedelta_new d s us 0 0 0 0 =
  if Z.abs (total / 1000000 / 86400) >? 999999999 then Raise OverflowError
  else Return (mk_timedelta (total / 1000000 / 86400)
                            ((total / 1000000) mod 86400)
                            (total mod 1000000)).
Proof.
  intros total. subst total.
  unfold timedelta_new, divmod. cbv beta iota zeta.
  change (24 * 3600) with 86400.
  match goal with
  | |- (if Z.abs ?a >? _ then _ else Return (mk_timedelta ?a ?b ?c)) = _ =>
      replace a with (((d * 86400 + s) * 1000000 + us) / 1000000 / 86400)
        by zlia;
      replace b with ((((d * 86400 + s) * 1000000 + us) / 1000000) mod 86400)
        by zlia;
      replace c with (((d * 86400 + s) * 1000000 + us) mod 1000000) by zlia
  end.
  reflexivity.
Qed.

(** ** The epoch-offset converter *)

Lemma datetime_new_epoch :
  datetime_new 2000 1 1 0 0 0 0 (Some utc) = Return postgres_epoch.
Proof. reflexivity. Qed.

(** Adding a normalized timedelta to the epoch. *)
Lemma datetime_add_epoch (delta : timedelta) :
  0 <= td_seconds delta < 86400 ->
  0 <= td_microseconds delta < 1000000 ->
  datetime_add postgres_epoch delta =
  let ord := 730120 + td_days delta in
  let s := td_seconds delta in
  if (0 <? ord) && (ord <=? _MAXORDINAL) then
    let '(y, m, d) := _ord2ymd ord in
    Return (mk_datetime y m d (s / 3600) (s mod 3600 / 60) (s mod 3600 mod 60)
                        (td_microseconds delta) (Some utc))
  else Raise OverflowError.
Proof.
  destruct delta as [dd s us]. cbn [td_days td_seconds td_microseconds].
  intros Hs Hus. unfold datetime_add.
  change (timedelta_new (toordinal postgres_epoch) (second postgres_epoch)
            (microsecond postgres_epoch) 0 (minute postgres_epoch)
            (hour postgres_epoch) 0)
    with (Return (mk_timedelta 730120 0 0)).
  cbn [bind]. unfold timedelta_add.
  cbn [td_days td_seconds td_microseconds].
  rewrite timedelta_new_total. cbv zeta.
  replace (((730120 + dd) * 86400 + (0 + s)) * 1000000 + (0 + us))
    with (((730120 + dd) * 86400 + s) * 1000000 + us) by lia.
  replace ((((730120 + dd) * 86400 + s) * 1000000 + us) / 1000000 / 86400)
    with (730120 + dd) by zlia.
  replace ((((730120 + dd) * 86400 + s) * 1000000 + us) / 1000000 mod 86400)
    with s by zlia.
  replace ((((730120 + dd) * 86400 + s) * 1000000 + us) mod 1000000)
    with us by zlia.
  unfold _MAXORDINAL.
  destruct (Z.gtb_spec (Z.abs (730120 + dd)) 999999999) as [Hbig | Hbig].
  - cbn [bind].
    destruct (Z.ltb_spec 0 (730120 + dd)),
      (Z.leb_spec (730120 + dd) 3652059); cbn [andb]; try reflexivity; lia.
  - cbn [bind td_days td_seconds td_microseconds]. unfold divmod.
    cbv beta iota zeta.
    destruct (Z.ltb_spec 0 (730120 + dd)) as [Hlo | Hlo];
      [|reflexivity].
    destruct (Z.leb_spec (730120 + dd) 3652059) as [Hhi | Hhi];
      [|reflexivity].
    cbn [andb]. unfold date_fromordinal.
    destruct (_ord2ymd (730120 + dd)) as [[y m] d] eqn:E.
    destruct (ord2ymd_spec _ _ _ _ E) as (Hm & Hd & _ & Hy).
    specialize (Hy ltac:(unfold _MAXORDINAL; lia)).
    unfold date_new. rewrite (check_date_fields_ok y m d Hy Hm Hd).
    cbn [bind]. unfold time_new.
    assert (Hh : 0 <= s / 3600 <= 23) by zlia.
    assert (Hmi : 0 <= s mod 3600 / 60 <= 59) by zlia.
    assert (Hse : 0 <= s mod 3600 mod 60 <= 59) by zlia.
    assert (Hu : 0 <= us <= 999999) by lia.
    rewrite (check_time_fields_ok _ _ _ _ Hh Hmi Hse Hu).
    cbn [bind]. unfold datetime_combine, datetime_new.
    cbn [d_year d_month d_day t_hour t_minute t_second t_microsecond
         t_tzinfo tz postgres_epoch].
    rewrite (check_date_fields_ok y m d Hy Hm Hd). cbn [bind].
    rewrite (check_time_fields_ok _ _ _ _ Hh Hmi Hse Hu). reflexivity.
Qed.

(** The converter in closed form: the ordinal of the result day is the
    epoch's ordinal plus the whole days of the offset; outside
    [1.._MAXORDINAL] the addition raises OverflowError. *)
Lemma postgres_timestamptz_to_datetime_eq (int64_value : Z) :
  postgres_timestamptz_to_datetime int64_value =
  let ord := 730120 + int64_value / 1000000 / 86400 in
  let s := (int64_value / 1000000) mod 86400 in
  if (0 <? ord) && (ord <=? _MAXORDINAL) then
    let '(y, m, d) := _ord2ymd ord in
    Return (mk_datetime y m d (s / 3600) (s mod 3600 / 60) (s mod 3600 mod 60)
                        (int64_value mod 1000000) (Some utc))
  else Raise OverflowError.
Proof.
  unfold postgres_timestamptz_to_datetime.
  rewrite datetime_new_epoch. cbn [bind].
  rewrite timedelta_new_total. cbv zeta.
  replace ((0 * 86400 + 0) * 1000000 + int64_value) with int64_value by lia.
  destruct (Z.gtb_spec (Z.abs (int64_value / 1000000 / 86400)) 999999999)
    as [Hbig | Hbig].
  - cbn [bind]. unfold _MAXORDINAL.
    destruct (Z.ltb_spec 0 (730120 + int64_value / 1000000 / 86400)),
      (Z.leb_spec (730120 + int64_value / 1000000 / 86400) 3652059);
      cbn [andb]; try reflexivity; lia.
  - cbn [bind]. rewrite datetime_add_epoch.
    + reflexivity.
    + cbn [td_seconds]. apply Z.mod_pos_bound. lia.
    + cbn [td_microseconds]. apply Z.mod_pos_bound. lia.
Qed.

(** ** Ordinals and the order of dates *)

(** A year has 365 days, or 366 when it is a leap year. *)
Lemma days_before_year_succ (y : Z) :
  _days_before_year (y + 1) = _days_before_year y + 365 + Z.b2z (_is_leap y).
Proof.
  unfold _days_before_year, _is_leap.
  replace (y + 1 - 1) with y by lia.
  destruct (Z.eqb_spec (y mod 4) 0), (Z.eqb_spec (y mod 100) 0),
    (Z.eqb_spec (y mod 400) 0); cbn [negb orb andb Z.b2z]; zlia.
Qed.

(** The first day of the numbering is 0001-01-01, and the days before a
    month are the days before the previous month plus its length. *)
Lemma ymd2ord_first_day : _ymd2ord 1 1 1 = 1.
Proof. reflexivity. Qed.

Lemma days_before_month_succ (y m : Z) :
  1 <= m < 12 ->
  _days_before_month y (m + 1) = _days_before_month y m + _days_in_month y m.
Proof.
  intros Hm. unfold _days_in_month, _days_before_month.
  destruct (_is_leap y); month_cases m; try lia; reflexivity.
Qed.

Lemma days_before_year_mono (y1 y2 : Z) :
  y1 <= y2 -> _days_before_year y1 <= _days_before_year y2.
Proof.
  intros H. unfold _days_before_year. zlia.
Qed.

Lemma day_of_year_range (y m d : Z) :
  1 <= m <= 12 -> 1 <= d <= _days_in_month y m ->
  1 <= _days_before_month y m + d <= 365 + Z.b2z (_is_leap y).
Proof.
  intros Hm. unfold _days_in_month, _days_before_month.
  destruct (_is_leap y); month_cases m; table_values; lia.
Qed.

Lemma days_before_month_lt (y m1 d1 m2 d2 : Z) :
  1 <= m1 -> m1 < m2 -> m2 <= 12 ->
  d1 <= _days_in_month y m1 -> 1 <= d2 ->
  _days_before_month y m1 + d1 < _days_before_month y m2 + d2.
Proof.
  intros H1 H12 H2. unfold _days_in_month, _days_before_month.
  destruct (_is_leap y); month_cases m1; month_cases m2; try lia;
    table_values; lia.
Qed.

Lemma ymd2ord_lt_year (y1 m1 d1 y2 m2 d2 : Z) :
  1 <= m1 <= 12 -> 1 <= d1 <= _days_in_month y1 m1 ->
  1 <= m2 <= 12 -> 1 <= d2 <= _days_in_month y2 m2 ->
  y1 < y2 -> _ymd2ord y1 m1 d1 < _ymd2ord y2 m2 d2.
Proof.
  intros Hm1 Hd1 Hm2 Hd2 Hy. unfold _ymd2ord.
  pose proof (day_of_year_range y1 m1 d1 Hm1 Hd1).
  pose proof (day_of_year_range y2 m2 d2 Hm2 Hd2).
  pose proof (days_before_year_succ y1).
  pose proof (days_before_year_mono (y1 + 1) y2 ltac:(lia)).
  lia.
Qed.


(** The field-by-field comparison of two well-formed datetimes is the
    comparison of the instants they denote. *)
Lemma tuple_cmp_instant (a b : datetime) :
  wf_datetime a -> wf_datetime b ->
  tuple_cmp
    [year a; month a; day a; hour a; minute a; second a; microsecond a]
    [year b; month b; day b; hour b; minute b; second b; microsecond b]
  = match instant a ?= instant b with Lt => -1 | Eq => 0 | Gt => 1 end.
Proof.
  destruct a as [y1 m1 d1 h1 mi1 s1 u1 z1].
  destruct b as [y2 m2 d2 h2 mi2 s2 u2 z2].
  unfold wf_datetime, instant, toordinal.
  cbn [year month day hour minute second microsecond].
  intros (_ & Hm1 & Hd1 & Hh1 & Hmi1 & Hs1 & Hu1)
         (_ & Hm2 & Hd2 & Hh2 & Hmi2 & Hs2 & Hu2).
  assert (Ho : (y1 < y2 -> _ymd2ord y1 m1 d1 < _ymd2ord y2 m2 d2) /\
               (y2 < y1 -> _ymd2ord y2 m2 d2 < _ymd2ord y1 m1 d1) /\
               (y1 = y2 -> m1 < m2 ->
                _ymd2ord y1 m1 d1 < _ymd2ord y2 m2 d2) /\
               (y1 = y2 -> m2 < m1 ->
                _ymd2ord y2 m2 d2 < _ymd2ord y1 m1 d1) /\
               (y1 = y2 -> m1 = m2 ->
                _ymd2ord y1 m1 d1 - _ymd2ord y2 m2 d2 = d1 - d2)).
  { repeat split; intros.
    - now apply ymd2ord_lt_year.
    - now apply ymd2ord_lt_year.
    - subst y2. unfold _ymd2ord.
      pose proof (days_before_month_lt y1 m1 d1 m2 d2). lia.
    - subst y2. unfold _ymd2ord.
      pose proof (days_before_month_lt y1 m2 d2 m1 d1). lia.
    - subst. unfold _ymd2ord. lia. }
  set (o1 := _ymd2ord y1 m1 d1) in *. set (o2 := _ymd2ord y2 m2 d2) in *.
  clearbody o1 o2. clear Hd1 Hd2.
  destruct Ho as (O1 & O2 & O3 & O4 & O5).
  cbn [tuple_cmp].
  repeat match goal with
         | |- context [if ?x =? ?y then _ else _] =>
             destruct (Z.eqb_spec x y);
             [|destruct (Z.gtb_spec x y)]
         end;
    match goal with
    | |- _ = match ?i ?= ?j with _ => _ end =>
        destruct (Z.compare_spec i j); try reflexivity; exfalso; lia
    end.
Qed.

(** A well-formed datetime is determined by its instant and its zone. *)
Lemma instant_injective (a b : datetime) :
  wf_datetime a -> wf_datetime b -> tz a = tz b ->
  instant a = instant b -> a = b.
Proof.
  intros Ha Hb Hz Hi.
  pose proof (tuple_cmp_instant a b Ha Hb) as H.
  rewrite Hi, Z.compare_refl in H.
  destruct a as [y1 m1 d1 h1 mi1 s1 u1 z1].
  destruct b as [y2 m2 d2 h2 mi2 s2 u2 z2].
  cbn [year month day hour minute second microsecond tz tuple_cmp] in H, Hz.
  repeat match type of H with
         | context [if ?x =? ?y then _ else _] =>
             destruct (Z.eqb_spec x y);
             [|destruct (Z.gtb_spec x y); discriminate]
         end.
  now subst.
Qed.

Lemma representable_ordinal (offset : Z) :
  representable offset <->
  1 <= 730120 + offset / 1000000 / 86400 <= 3652059.
Proof.
  unfold representable.
  change (instant datetime_min) with 86400000000.
  change (instant postgres_epoch) with 63082368000000000.
  change (instant datetime_max) with 315537983999999999.
  split; intros H; zlia.
Qed.

(** What the converter returns on a representable offset. *)
Lemma postgres_timestamptz_to_datetime_representable (offset : Z) :
  representable offset ->
  exists d,
    postgres_timestamptz_to_datetime offset = Return d /\
    wf_datetime d /\
    instant d = instant postgres_epoch + offset /\
    tz d = Some utc /\
    microsecond d = offset mod 1000000.
Proof.
  intros Hrep. apply representable_ordinal in Hrep.
  rewrite postgres_timestamptz_to_datetime_eq. cbv zeta.
  unfold _MAXORDINAL.
  destruct (Z.ltb_spec 0 (730120 + offset / 1000000 / 86400)); [|lia].
  destruct (Z.leb_spec (730120 + offset / 1000000 / 86400) 3652059); [|lia].
  cbn [andb].
  destruct (_ord2ymd (730120 + offset / 1000000 / 86400))
    as [[y m] d] eqn:E.
  destruct (ord2ymd_spec _ _ _ _ E) as (Hm & Hd & Hord & Hy).
  specialize (Hy ltac:(unfold _MAXORDINAL; lia)).
  eexists. split; [reflexivity|].
  change (instant postgres_epoch) with 63082368000000000.
  unfold wf_datetime, instant, toordinal.
  cbn [year month day hour minute second microsecond tz].
  rewrite Hord. clear E Hord.
  repeat split; try assumption; zlia.
Qed.

Lemma postgres_timestamptz_to_datetime_overflow (offset : Z) :
  ~ representable offset ->
  postgres_timestamptz_to_datetime offset = Raise OverflowError.
Proof.
  intros Hrep. rewrite representable_ordinal in Hrep.
  rewrite postgres_timestamptz_to_datetime_eq. cbv zeta.
  unfold _MAXORDINAL.
  destruct (Z.ltb_spec 0 (730120 + offset / 1000000 / 86400));
    [|reflexivity].
  destruct (Z.leb_spec (730120 + offset / 1000000 / 86400) 3652059);
    [lia | reflexivity].
Qed.

Lemma representable_dec (offset : Z) :
  representable offset \/ ~ representable offset.
Proof. unfold representable. lia. Qed.

(** Every representable offset is a signed 64-bit integer. *)
Lemma representable_int64 (offset : Z) : representable offset -> int64 offset.
Proof.
  unfold representable, int64.
  change (instant datetime_min) with 86400000000.
  change (instant postgres_epoch) with 63082368000000000.
  change (instant datetime_max) with 315537983999999999.
  change (2 ^ 63) with 9223372036854775808. lia.
Qed.

(** No re-encoder at all can give every valid token back: two valid tokens
    that differ only in the case of a digit decode to the same integer. *)
Lemma no_exact_reencoder :
  ~ exists encode : Z -> result str,
      forall t, valid_token t ->
        exists v, hex_le_to_int64 t = Return v /\ encode v = Return t.
Proof.
  intros [encode H].
  destruct (H (str_of "0a00000000000000") ltac:(split; reflexivity))
    as (v1 & Hd1 & He1).
  destruct (H (str_of "0A00000000000000") ltac:(split; reflexivity))
    as (v2 & Hd2 & He2).
  vm_compute in Hd1, Hd2.
  injection Hd1 as <-. injection Hd2 as <-.
  rewrite He1 in He2. discriminate.
Qed.

(** ** The claims *)

(** C1: for every offset whose result is representable (such an offset is a
    signed 64-bit integer of either sign), the converter returns a
    well-formed datetime that denotes exactly the instant of
    2000-01-01T00:00:00 UTC plus the offset in microseconds, carries the UTC
    zone, and keeps the microsecond component of the offset. *)
Theorem postgres_timestamptz_to_datetime_adds_offset (offset : Z) :
  representable offset ->
  exists d,
    postgres_timestamptz_to_datetime offset = Return d /\
    wf_datetime d /\
    instant d = instant postgres_epoch + offset /\
    tz d = Some utc /\
    microsecond d = offset mod 1000000.
Proof. exact (postgres_timestamptz_to_datetime_representable offset). Qed.

Lemma postgres_timestamptz_to_datetime_adds_offset_witness :
  representable (-1) /\
  exists d,
    postgres_timestamptz_to_datetime (-1) = Return d /\
    wf_datetime d /\
    instant d = instant postgres_epoch + -1 /\
    tz d = Some utc /\
    microsecond d = (-1) mod 1000000.
Proof.
  assert (H : representable (-1))
    by (unfold representable; vm_compute; intuition discriminate).
  split; [exact H|].
  exact (postgres_timestamptz_to_datetime_adds_offset (-1) H).
Defined.

(** C2, as stated, fails: an upper-case token decodes, and the re-encoding
    of the integer is the lower-case token, a different string. *)
Lemma roundtrip_not_exact_on_upper_case :
  valid_token (str_of "0A00000000000000") /\
  hex_le_to_int64 (str_of "0A00000000000000") = Return 10 /\
  int64_to_hex_le 10 = Return (str_of "0a00000000000000") /\
  str_of "0a00000000000000" <> str_of "0A00000000000000".
Proof.
  repeat split; try reflexivity. vm_compute. discriminate.
Qed.

(** C2, amended: for every valid 16-character hex token the decoder returns
    a signed 64-bit integer whose 16-character lower-case little-endian hex
    encoding is the token with its letters lower-cased; it is the token
    itself, character for character, when the token has no upper-case
    digit. *)
Theorem hex_roundtrip_lower_case (t : str) :
  valid_token t ->
  exists v,
    hex_le_to_int64 t = Return v /\
    int64 v /\
    int64_to_hex_le v = Return (str_lower t) /\
    (forallb (fun c => negb (is_upper c)) t = true ->
     int64_to_hex_le v = Return t).
Proof.
  intros Hv.
  destruct (hex_le_to_int64_valid t Hv) as (bs & Hlen & Hb & Hx & Hd).
  exists (int_from_bytes_little bs true).
  assert (Hne : bs <> []) by (intros ->; discriminate).
  pose proof (int_from_bytes_signed_range bs Hb Hne) as Hr.
  rewrite Hlen in Hr. change (8 * Z.of_nat 8 - 1) with 63 in Hr.
  assert (He : int64_to_hex_le (int_from_bytes_little bs true)
               = Return (str_lower t)).
  { unfold int64_to_hex_le.
    rewrite (int64_to_bytes_from_bytes bs Hb Hlen). cbn [bind].
    now rewrite Hx. }
  repeat split.
  - exact Hd.
  - lia.
  - unfold int64 in *. lia.
  - exact He.
  - intros Hlow. now rewrite He, (str_lower_no_upper t Hlow).
Qed.

Lemma hex_roundtrip_lower_case_witness :
  valid_token (str_of "a922e78e1bdd0200") /\
  exists v,
    hex_le_to_int64 (str_of "a922e78e1bdd0200") = Return v /\
    int64 v /\
    int64_to_hex_le v = Return (str_lower (str_of "a922e78e1bdd0200")) /\
    (forallb (fun c => negb (is_upper c)) (str_of "a922e78e1bdd0200") = true ->
     int64_to_hex_le v = Return (str_of "a922e78e1bdd0200")).
Proof.
  assert (H : valid_token (str_of "a922e78e1bdd0200"))
    by (split; reflexivity).
  split; [exact H | exact (hex_roundtrip_lower_case _ H)].
Defined.

(** C3 fails on the code: a 16-character token whose non-hex characters are
    ASCII whitespace between digit pairs is accepted, and the value comes
    from the digits that remain; sixteen spaces decode to zero, and a single
    byte [ff] followed by spaces is read as the one-byte signed value -1. *)
Theorem hex_le_to_int64_accepts_whitespace :
  is_hex_digit 32 = false /\
  List.length (str_of "                ") = 16%nat /\
  hex_le_to_int64 (str_of "                ") = Return 0 /\
  List.length (str_of "0a              ") = 16%nat /\
  hex_le_to_int64 (str_of "0a              ") = Return 10 /\
  List.length (str_of "ff              ") = 16%nat /\
  hex_le_to_int64 (str_of "ff              ") = Return (-1).
Proof. repeat split; reflexivity. Qed.

(** C4, as stated, fails: the result for 662770800000000 is not
    2021-01-01T03:40:00 UTC. *)
Lemma sample_offset_not_2021_01_01_03_40 :
  postgres_timestamptz_to_datetime 662770800000000
  <> Return (mk_datetime 2021 1 1 3 40 0 0 (Some utc)).
Proof. vm_compute. discriminate. Qed.

(** C4, amended: for the offset 662770800000000 the converter returns the
    UTC timestamp 2020-12-31T23:00:00. *)
Theorem sample_offset_is_2020_12_31_23_00 :
  postgres_timestamptz_to_datetime 662770800000000
  = Return (mk_datetime 2020 12 31 23 0 0 0 (Some utc)).
Proof. vm_compute. reflexivity. Qed.

(** C5: a string whose length is not 16 is rejected with ValueError,
    whatever its content. *)
Theorem hex_le_to_int64_wrong_length (hex_str : str) :
  List.length hex_str <> 16%nat ->
  hex_le_to_int64 hex_str = Raise ValueError.
Proof.
  intros H. unfold hex_le_to_int64, len.
  destruct (Z.eqb_spec (Z.of_nat (List.length hex_str)) 16); [lia|].
  reflexivity.
Qed.

Lemma hex_le_to_int64_wrong_length_witness :
  List.length (str_of "0a000000") <> 16%nat /\
  hex_le_to_int64 (str_of "0a000000") = Raise ValueError.
Proof.
  assert (H : List.length (str_of "0a000000") <> 16%nat)
    by (vm_compute; discriminate).
  split; [exact H | exact (hex_le_to_int64_wrong_length _ H)].
Defined.

(** C6: the converter raises OverflowError exactly when the epoch plus the
    offset lies outside [datetime.min .. datetime.max]; on every
    representable offset it returns a datetime; it raises nothing else. *)
Theorem postgres_timestamptz_to_datetime_overflow_iff (offset : Z) :
  (postgres_timestamptz_to_datetime offset = Raise OverflowError
   <-> ~ representable offset) /\
  (representable offset ->
   exists d, postgres_timestamptz_to_datetime offset = Return d) /\
  (forall e, postgres_timestamptz_to_datetime offset = Raise e ->
             e = OverflowError).
Proof.
  repeat split.
  - intros Hraise Hrep.
    destruct (postgres_timestamptz_to_datetime_representable offset Hrep)
      as (d & Hd & _).
    rewrite Hd in Hraise. discriminate.
  - apply postgres_timestamptz_to_datetime_overflow.
  - intros Hrep.
    destruct (postgres_timestamptz_to_datetime_representable offset Hrep)
      as (d & Hd & _).
    now exists d.
  - intros e He.
    destruct (representable_dec offset) as [Hrep | Hrep].
    + destruct (postgres_timestamptz_to_datetime_representable offset Hrep)
        as (d & Hd & _).
      rewrite Hd in He. discriminate.
    + rewrite (postgres_timestamptz_to_datetime_overflow offset Hrep) in He.
      now injection He as <-.
Qed.

(** C7: the token "0a00000000000000" decodes to 10. *)
Theorem hex_le_to_int64_example_10 :
  hex_le_to_int64 (str_of "0a00000000000000") = Return 10.
Proof. reflexivity. Qed.

(** C8: the converter is strictly monotonic: when it returns datetimes for
    two offsets [a < b], the one for [a] compares strictly earlier
    ([datetime.__lt__] returns True). *)
Theorem postgres_timestamptz_to_datetime_strictly_monotonic
  (a b : Z) (da db : datetime) :
  a < b ->
  postgres_timestamptz_to_datetime a = Return da ->
  postgres_timestamptz_to_datetime b = Return db ->
  datetime_lt da db = Return true.
Proof.
  intros Hab Ha Hb.
  assert (Hra : representable a).
  { destruct (representable_dec a) as [H | H]; [exact H|].
    rewrite (postgres_timestamptz_to_datetime_overflow a H) in Ha.
    discriminate. }
  assert (Hrb : representable b).
  { destruct (representable_dec b) as [H | H]; [exact H|].
    rewrite (postgres_timestamptz_to_datetime_overflow b H) in Hb.
    discriminate. }
  destruct (postgres_timestamptz_to_datetime_representable a Hra)
    as (da' & Ea & Wa & Ia & Za & _).
  destruct (postgres_timestamptz_to_datetime_representable b Hrb)
    as (db' & Eb & Wb & Ib & Zb & _).
  rewrite Ea in Ha. injection Ha as ->.
  rewrite Eb in Hb. injection Hb as ->.
  unfold datetime_lt, datetime_cmp. rewrite Za, Zb. cbn [tzinfo_is bind].
  rewrite (tuple_cmp_instant da db Wa Wb).
  replace (instant da ?= instant db) with Lt
    by (symmetry; apply Z.compare_lt_iff; lia).
  reflexivity.
Qed.

Lemma postgres_timestamptz_to_datetime_strictly_monotonic_witness :
  -1 < 0 /\
  postgres_timestamptz_to_datetime (-1)
  = Return (mk_datetime 1999 12 31 23 59 59 999999 (Some utc)) /\
  postgres_timestamptz_to_datetime 0
  = Return (mk_datetime 2000 1 1 0 0 0 0 (Some utc)) /\
  datetime_lt (mk_datetime 1999 12 31 23 59 59 999999 (Some utc))
              (mk_datetime 2000 1 1 0 0 0 0 (Some utc))
  = Return true.
Proof.
  assert (H1 : -1 < 0) by reflexivity.
  assert (H2 : postgres_timestamptz_to_datetime (-1)
               = Return (mk_datetime 1999 12 31 23 59 59 999999 (Some utc)))
    by (vm_compute; reflexivity).
  assert (H3 : postgres_timestamptz_to_datetime 0
               = Return (mk_datetime 2000 1 1 0 0 0 0 (Some utc)))
    by (vm_compute; reflexivity).
  split; [exact H1|]. split; [exact H2|]. split; [exact H3|].
  exact (postgres_timestamptz_to_datetime_strictly_monotonic _ _ _ _ H1 H2 H3).
Defined.

(** C9: the composition is not total on valid tokens: the token
    "ffffffffffffff7f" is valid and decodes to 2^63 - 1, on which the
    converter raises OverflowError. *)
Theorem composition_not_total :
  exists t v,
    valid_token t /\
    hex_le_to_int64 t = Return v /\
    postgres_timestamptz_to_datetime v = Raise OverflowError.
Proof.
  exists (str_of "ffffffffffffff7f"), (2 ^ 63 - 1).
  repeat split; vm_compute; reflexivity.
Qed.

(** C10: whatever string the decoder accepts, the value it returns is a
    signed 64-bit integer. *)
Theorem hex_le_to_int64_range (hex_str : str) (v : Z) :
  hex_le_to_int64 hex_str = Return v -> int64 v.
Proof.
  unfold hex_le_to_int64, bytes_fromhex, len.
  destruct (Z.eqb_spec (Z.of_nat (List.length hex_str)) 16) as [Hlen|];
    [|discriminate].
  cbn [negb].
  destruct (existsb _ hex_str); [discriminate|].
  destruct (fromhex_loop hex_str) as [bs|e] eqn:Hscan; [|discriminate].
  cbn [bind]. intros [= <-].
  destruct (fromhex_loop_bytes hex_str bs Hscan) as [Hn Hb].
  destruct bs as [|b0 bs0] eqn:E.
  - unfold int64. vm_compute. intuition discriminate.
  - rewrite <- E in *.
    assert (Hne : bs <> []) by (subst bs; discriminate).
    pose proof (int_from_bytes_signed_range bs Hb Hne) as Hr.
    assert (Hpow : 2 ^ (8 * Z.of_nat (List.length bs) - 1) <= 2 ^ 63)
      by (apply Z.pow_le_mono_r; lia).
    unfold int64. lia.
Qed.

Lemma hex_le_to_int64_range_witness :
  hex_le_to_int64 (str_of "0a00000000000000") = Return 10 /\ int64 10.
Proof.
  assert (H : hex_le_to_int64 (str_of "0a00000000000000") = Return 10)
    by reflexivity.
  split; [exact H | exact (hex_le_to_int64_range _ _ H)].
Defined.

(** ** Further properties of the hex decoder *)

Lemma is_hex_digit_of_value (c : N) :
  (_PyLong_DigitValue c >=? 16) = false -> is_hex_digit c = true.
Proof.
  intros H. destruct (is_hex_digit c) eqn:E; [reflexivity|].
  rewrite (non_hex_digit_value c E) in H. discriminate.
Qed.

(** The scan raises nothing but ValueError. *)
Lemma fromhex_loop_raises (s : str) (e : exception) :
  fromhex_loop s = Raise e -> e = ValueError.
Proof.
  enough (G : forall n (s : str), (List.length s <= n)%nat ->
                                  fromhex_loop s = Raise e -> e = ValueError)
    by (apply (G (List.length s)); lia).
  clear s. induction n as [|n IH]; intros s Hle H.
  - destruct s; [discriminate | simpl in Hle; lia].
  - destruct s as [|c s1]; [discriminate|].
    simpl in Hle. cbn [fromhex_loop] in H.
    destruct (Py_ISSPACE c); [apply (IH s1); [lia | exact H]|].
    destruct (_PyLong_DigitValue c >=? 16); [now injection H|].
    destruct s1 as [|c2 s2]; [now injection H|].
    destruct (_PyLong_DigitValue c2 >=? 16); [now injection H|].
    simpl in Hle.
    destruct (fromhex_loop s2) as [rest|e'] eqn:E; [discriminate|].
    cbn [bind] in H. injection H as <-. apply (IH s2); [lia | exact E].
Qed.

Lemma fromhex_loop_accepts (s : str) :
  (exists bs, fromhex_loop s = Return bs) <-> hex_pairs s.
Proof.
  split.
  - enough (G : forall n (s : str), (List.length s <= n)%nat ->
                  (exists bs, fromhex_loop s = Return bs) -> hex_pairs s)
      by (apply (G (List.length s)); lia).
    clear s. induction n as [|n IH]; intros s Hle [bs H].
    + destruct s; [constructor | simpl in Hle; lia].
    + destruct s as [|c s1]; [constructor|].
      simpl in Hle. cbn [fromhex_loop] in H.
      destruct (Py_ISSPACE c) eqn:Hs.
      * apply hex_pairs_space; [exact Hs|].
        apply IH; [lia | now exists bs].
      * destruct (_PyLong_DigitValue c >=? 16) eqn:Hd1; [discriminate|].
        destruct s1 as [|c2 s2]; [discriminate|].
        destruct (_PyLong_DigitValue c2 >=? 16) eqn:Hd2; [discriminate|].
        destruct (fromhex_loop s2) as [rest|e] eqn:E; [|discriminate].
        simpl in Hle.
        apply hex_pairs_pair; try now apply is_hex_digit_of_value.
        apply IH; [lia | now exists rest].
  - induction 1 as [|c s Hs _ [bs IH]|c1 c2 s H1 H2 _ [bs IH]].
    + now exists [].
    + exists bs. cbn [fromhex_loop]. now rewrite Hs.
    + destruct (hex_digit_props c1 H1) as (Hs1 & _ & Hd1 & _).
      destruct (hex_digit_props c2 H2) as (_ & _ & Hd2 & _).
      eexists. cbn [fromhex_loop]. rewrite Hs1.
      destruct (Z.geb_spec (_PyLong_DigitValue c1) 16); [lia|].
      destruct (Z.geb_spec (_PyLong_DigitValue c2) 16); [lia|].
      rewrite IH. reflexivity.
Qed.

Lemma space_ascii (c : N) : Py_ISSPACE c = true -> (128 <=? c)%N = false.
Proof.
  unfold Py_ISSPACE. intros H.
  repeat match type of H with
         | context [N.leb ?a ?b] => destruct (N.leb_spec a b)
         | context [N.eqb ?a ?b] => destruct (N.eqb_spec a b)
         end; simpl in H; try discriminate; apply N.leb_gt; lia.
Qed.

Lemma hex_pairs_ascii (s : str) :
  hex_pairs s -> existsb (fun c => (128 <=? c)%N) s = false.
Proof.
  induction 1 as [|c s Hs _ IH|c1 c2 s H1 H2 _ IH]; [reflexivity| |].
  - cbn [existsb]. now rewrite (space_ascii c Hs), IH.
  - destruct (hex_digit_props c1 H1) as (_ & Ha1 & _).
    destruct (hex_digit_props c2 H2) as (_ & Ha2 & _).
    cbn [existsb]. now rewrite Ha1, Ha2, IH.
Qed.

(** X1: the decoder returns a value exactly on the 16-character strings made
    of pairs of adjacent hexadecimal digits and ASCII whitespace around the
    pairs; on every other string it raises ValueError, and it never raises
    anything else. *)
Theorem hex_le_to_int64_accepts_iff (hex_str : str) :
  ((exists v, hex_le_to_int64 hex_str = Return v)
   <-> List.length hex_str = 16%nat /\ hex_pairs hex_str) /\
  (forall e, hex_le_to_int64 hex_str = Raise e -> e = ValueError).
Proof.
  unfold hex_le_to_int64, bytes_fromhex, len.
  split; [split|].
  - intros [v H].
    destruct (Z.eqb_spec (Z.of_nat (List.length hex_str)) 16) as [Hlen|];
      [|discriminate].
    cbn [negb] in H. split; [lia|].
    destruct (existsb _ hex_str); [discriminate|].
    destruct (fromhex_loop hex_str) as [bs|e'] eqn:E; [|discriminate].
    apply fromhex_loop_accepts. now exists bs.
  - intros [Hlen Hp].
    destruct (Z.eqb_spec (Z.of_nat (List.length hex_str)) 16); [|lia].
    cbn [negb]. rewrite (hex_pairs_ascii _ Hp).
    apply fromhex_loop_accepts in Hp. destruct Hp as [bs ->].
    cbn [bind]. now eexists.
  - intros e H.
    destruct (negb _); [now injection H|].
    destruct (existsb _ hex_str); [now injection H|].
    destruct (fromhex_loop hex_str) as [bs|e'] eqn:E; [discriminate|].
    cbn [bind] in H. injection H as <-.
    now apply (fromhex_loop_raises hex_str).
Qed.

Lemma hex_le_to_int64_rejects_witness :
  (exists c, In c (str_of "g000000000000000")
             /\ is_hex_digit c = false /\ Py_ISSPACE c = false) /\
  hex_le_to_int64 (str_of "g000000000000000") = Raise ValueError.
Proof.
  assert (H : exists c, In c (str_of "g000000000000000")
                        /\ is_hex_digit c = false /\ Py_ISSPACE c = false).
  { exists 103%N. split; [left; reflexivity | split; reflexivity]. }
  split; [exact H|].
  exact (hex_le_to_int64_rejects _ H).
Defined.

Lemma lower_char (c : N) :
  Py_ISSPACE (lower c) = Py_ISSPACE c /\
  _PyLong_DigitValue (lower c) = _PyLong_DigitValue c /\
  (128 <=? lower c)%N = (128 <=? c)%N.
Proof.
  destruct (N.lt_ge_cases c (N.of_nat 128)) as [Hc | Hc].
  - pose (p := fun c : N =>
      Bool.eqb (Py_ISSPACE (lower c)) (Py_ISSPACE c)
      && (_PyLong_DigitValue (lower c) =? _PyLong_DigitValue c)
      && Bool.eqb (128 <=? lower c)%N (128 <=? c)%N).
    assert (Hp : p c = true).
    { apply (forallb_Nrange p 128); [vm_compute; reflexivity | exact Hc]. }
    unfold p in Hp.
    apply andb_prop in Hp. destruct Hp as [Hp H3].
    apply andb_prop in Hp. destruct Hp as [H1 H2].
    repeat split.
    + now apply Bool.eqb_prop.
    + now apply Z.eqb_eq.
    + now apply Bool.eqb_prop.
  - assert (E : lower c = c).
    { unfold lower. destruct (N.leb_spec 65 c), (N.leb_spec c 90);
        cbn [andb]; try reflexivity.
      change (N.of_nat 128) with 128%N in Hc. lia. }
    now rewrite E.
Qed.

Lemma fromhex_loop_lower (s : str) :
  fromhex_loop (str_lower s) = fromhex_loop s.
Proof.
  enough (G : forall n (s : str), (List.length s <= n)%nat ->
                fromhex_loop (str_lower s) = fromhex_loop s)
    by (apply (G (List.length s)); lia).
  clear s. induction n as [|n IH]; intros s Hle.
  - destruct s; [reflexivity | simpl in Hle; lia].
  - destruct s as [|c s1]; [reflexivity|].
    simpl in Hle. cbn [str_lower map fromhex_loop]. fold (str_lower s1).
    destruct (lower_char c) as (-> & -> & _).
    rewrite (IH s1) by lia.
    destruct (Py_ISSPACE c); [reflexivity|].
    destruct (_PyLong_DigitValue c >=? 16); [reflexivity|].
    destruct s1 as [|c2 s2]; [reflexivity|].
    cbn [str_lower map]. fold (str_lower s2).
    destruct (lower_char c2) as (_ & -> & _).
    simpl in Hle. rewrite (IH s2) by lia. reflexivity.
Qed.

(** X3: the decoder ignores the case of letters: lower-casing any string
    leaves its result, value or error, unchanged. *)
Theorem hex_le_to_int64_case_insensitive (hex_str : str) :
  hex_le_to_int64 (str_lower hex_str) = hex_le_to_int64 hex_str.
Proof.
  unfold hex_le_to_int64, bytes_fromhex, len.
  unfold str_lower at 1. rewrite length_map.
  destruct (negb _); [reflexivity|].
  rewrite fromhex_loop_lower.
  replace (existsb (fun c => (128 <=? c)%N) (str_lower hex_str))
    with (existsb (fun c => (128 <=? c)%N) hex_str); [reflexivity|].
  induction hex_str as [|c s IH]; [reflexivity|].
  cbn [str_lower map existsb]. fold (str_lower s).
  destruct (lower_char c) as (_ & _ & ->). now rewrite IH.
Qed.

Lemma fromhex_loop_hex_nth (n : nat) :
  forall (t : str) (bs : list Z),
    List.length t = (2 * n)%nat ->
    forallb is_hex_digit t = true ->
    fromhex_loop t = Return bs ->
    forall i, (i < n)%nat ->
      nth i bs 0 = 16 * digit_at t (2 * i) + digit_at t (2 * i + 1).
Proof.
  induction n as [|n IH]; intros t bs Hlen Hhex Hs i Hi; [lia|].
  destruct t as [|c1 [|c2 t]]; try (simpl in Hlen; lia).
  simpl in Hhex.
  apply andb_prop in Hhex. destruct Hhex as [H1 Hhex].
  apply andb_prop in Hhex. destruct Hhex as [H2 Hhex].
  destruct (hex_digit_props c1 H1) as (Hs1 & _ & Hd1 & _).
  destruct (hex_digit_props c2 H2) as (_ & _ & Hd2 & _).
  cbn [fromhex_loop] in Hs. rewrite Hs1 in Hs.
  destruct (Z.geb_spec (_PyLong_DigitValue c1) 16); [lia|].
  destruct (Z.geb_spec (_PyLong_DigitValue c2) 16); [lia|].
  destruct (fromhex_loop t) as [rest|e] eqn:E; [|discriminate].
  cbn [bind] in Hs. rewrite shiftl4_add in Hs by lia.
  assert (Hbs : bs = 16 * _PyLong_DigitValue c1 + _PyLong_DigitValue c2
                     :: rest) by congruence.
  subst bs. clear Hs.
  destruct i as [|j].
  - reflexivity.
  - replace (2 * S j)%nat with (S (S (2 * j))) by lia.
    unfold digit_at. cbn [nth Nat.add].
    apply (IH t rest); try assumption; simpl in Hlen; lia.
Qed.

Lemma int_from_bytes_sum (bs : list Z) :
  exists k, int_from_bytes_little bs true
            = sum_shifted 0 bs + k * 2 ^ (8 * Z.of_nat (List.length bs)).
Proof.
  unfold int_from_bytes_little, len.
  rewrite Z.shiftl_mul_pow2, Z.mul_1_l by lia.
  match goal with |- context [if ?c then _ else _] => destruct c end;
    [exists (-1) | exists 0]; lia.
Qed.

Lemma hex_digit_at (t : str) (i : nat) :
  forallb is_hex_digit t = true -> (i < List.length t)%nat ->
  0 <= digit_at t i < 16.
Proof.
  intros Hhex Hi. rewrite forallb_forall in Hhex.
  apply hex_digit_props, Hhex, nth_In, Hi.
Qed.

(** On a valid token the decoder returns a signed 64-bit integer whose byte
    [i] is spelled by the characters [2i] and [2i+1] of the token. *)
Lemma hex_le_to_int64_valid_bytes (t : str) :
  valid_token t ->
  exists v,
    hex_le_to_int64 t = Return v /\
    int64 v /\
    forall i, (i < 8)%nat ->
      (v / 256 ^ Z.of_nat i) mod 256
      = 16 * digit_at t (2 * i) + digit_at t (2 * i + 1).
Proof.
  intros [Hlen Hhex].
  destruct (fromhex_loop_hex_digits 8 t Hlen Hhex) as (bs & Hs & Hn & Hb & _).
  exists (int_from_bytes_little bs true).
  assert (Hne : bs <> []) by (intros ->; discriminate).
  pose proof (int_from_bytes_signed_range bs Hb Hne) as Hr.
  rewrite Hn in Hr. change (8 * Z.of_nat 8 - 1) with 63 in Hr.
  repeat split.
  - unfold hex_le_to_int64, bytes_fromhex, len. rewrite Hlen.
    change (negb (Z.of_nat (2 * 8) =? 16)) with false. cbv iota.
    now rewrite (hex_digits_ascii t Hhex), Hs.
  - lia.
  - lia.
  - intros i Hi.
    destruct (int_from_bytes_sum bs) as [k ->].
    replace (256 ^ Z.of_nat i) with (2 ^ (8 * Z.of_nat i))
      by (rewrite Z.pow_mul_r by lia; reflexivity).
    rewrite sum_shifted_byte by (try assumption; lia).
    now apply (fromhex_loop_hex_nth 8 t bs).
Qed.

(** X4: the decoding is little-endian: on a valid token the result is an
    integer whose [i]-th base-256 digit (counted from the least significant
    one) is the byte written at characters [2i] and [2i+1]. *)
Theorem hex_le_to_int64_little_endian (t : str) :
  valid_token t ->
  exists v,
    hex_le_to_int64 t = Return v /\
    forall i, (i < 8)%nat ->
      (v / 256 ^ Z.of_nat i) mod 256
      = 16 * digit_at t (2 * i) + digit_at t (2 * i + 1).
Proof.
  intros Hv.
  destruct (hex_le_to_int64_valid_bytes t Hv) as (v & Hd & _ & Hb).
  now exists v.
Qed.

Lemma hex_le_to_int64_little_endian_witness :
  valid_token (str_of "a922e78e1bdd0200") /\
  exists v,
    hex_le_to_int64 (str_of "a922e78e1bdd0200") = Return v /\
    forall i, (i < 8)%nat ->
      (v / 256 ^ Z.of_nat i) mod 256
      = 16 * digit_at (str_of "a922e78e1bdd0200") (2 * i)
        + digit_at (str_of "a922e78e1bdd0200") (2 * i + 1).
Proof.
  assert (H : valid_token (str_of "a922e78e1bdd0200"))
    by (split; reflexivity).
  split; [exact H|].
  exact (hex_le_to_int64_little_endian _ H).
Defined.

(** X5: on a valid token the sign of the result is decided by the
    next-to-last character: the result is negative exactly when that digit
    is 8 or more (the top bit of the last byte). *)
Theorem hex_le_to_int64_sign (t : str) (v : Z) :
  valid_token t ->
  hex_le_to_int64 t = Return v ->
  (v < 0 <-> 8 <= digit_at t 14).
Proof.
  intros Hv Hd.
  destruct (hex_le_to_int64_valid_bytes t Hv) as (v' & Hd' & Hr & Hb).
  rewrite Hd in Hd'. injection Hd' as <-.
  specialize (Hb 7%nat ltac:(lia)).
  change (2 * 7)%nat with 14%nat in Hb. change (14 + 1)%nat with 15%nat in Hb.
  change (256 ^ Z.of_nat 7) with 72057594037927936 in Hb.
  destruct Hv as [Hlen Hhex].
  pose proof (hex_digit_at t 14 Hhex ltac:(lia)) as H14.
  pose proof (hex_digit_at t 15 Hhex ltac:(lia)) as H15.
  unfold int64 in Hr. change (2 ^ 63) with 9223372036854775808 in Hr.
  split; intros H; zlia.
Qed.

Lemma hex_le_to_int64_sign_witness :
  valid_token (str_of "ffffffffffffffff") /\
  hex_le_to_int64 (str_of "ffffffffffffffff") = Return (-1) /\
  (-1 < 0 <-> 8 <= digit_at (str_of "ffffffffffffffff") 14).
Proof.
  assert (H1 : valid_token (str_of "ffffffffffffffff"))
    by (split; reflexivity).
  assert (H2 : hex_le_to_int64 (str_of "ffffffffffffffff") = Return (-1))
    by reflexivity.
  split; [exact H1|]. split; [exact H2|].
  exact (hex_le_to_int64_sign _ _ H1 H2).
Defined.

(** X6: on valid tokens the decoder is injective up to the case of the
    letters: two valid tokens with the same result are equal once
    lower-cased. *)
Theorem hex_le_to_int64_injective (t1 t2 : str) (v : Z) :
  valid_token t1 -> valid_token t2 ->
  hex_le_to_int64 t1 = Return v ->
  hex_le_to_int64 t2 = Return v ->
  str_lower t1 = str_lower t2.
Proof.
  intros Hv1 Hv2 Hd1 Hd2.
  destruct (hex_le_to_int64_valid t1 Hv1) as (bs1 & Hn1 & Hb1 & Hx1 & He1).
  destruct (hex_le_to_int64_valid t2 Hv2) as (bs2 & Hn2 & Hb2 & Hx2 & He2).
  rewrite Hd1 in He1. rewrite Hd2 in He2.
  injection He1 as He1. injection He2 as He2.
  pose proof (int64_to_bytes_from_bytes bs1 Hb1 Hn1) as R1.
  pose proof (int64_to_bytes_from_bytes bs2 Hb2 Hn2) as R2.
  rewrite <- He1 in R1. rewrite <- He2 in R2.
  rewrite R1 in R2. injection R2 as ->.
  now rewrite <- Hx1, <- Hx2.
Qed.

Lemma hex_le_to_int64_injective_witness :
  valid_token (str_of "0A00000000000000") /\
  valid_token (str_of "0a00000000000000") /\
  hex_le_to_int64 (str_of "0A00000000000000") = Return 10 /\
  hex_le_to_int64 (str_of "0a00000000000000") = Return 10 /\
  str_lower (str_of "0A00000000000000")
  = str_lower (str_of "0a00000000000000").
Proof.
  assert (H1 : valid_token (str_of "0A00000000000000"))
    by (split; reflexivity).
  assert (H2 : valid_token (str_of "0a00000000000000"))
    by (split; reflexivity).
  assert (H3 : hex_le_to_int64 (str_of "0A00000000000000") = Return 10)
    by reflexivity.
  assert (H4 : hex_le_to_int64 (str_of "0a00000000000000") = Return 10)
    by reflexivity.
  split; [exact H1|]. split; [exact H2|].
  split; [exact H3|]. split; [exact H4|].
  exact (hex_le_to_int64_injective _ _ _ H1 H2 H3 H4).
Defined.

Lemma hexdigit_props (d : Z) :
  0 <= d < 16 ->
  is_hex_digit (hexdigit d) = true /\ _PyLong_DigitValue (hexdigit d) = d.
Proof.
  intros Hd.
  pose (p := fun d : Z =>
    is_hex_digit (hexdigit d) && (_PyLong_DigitValue (hexdigit d) =? d)).
  assert (Hp : p d = true).
  { apply (forallb_Zrange p 16); [vm_compute; reflexivity | exact Hd]. }
  unfold p in Hp. apply andb_prop in Hp. destruct Hp as [H1 H2].
  split; [exact H1 | now apply Z.eqb_eq].
Qed.

Lemma byte_nibbles (b : Z) :
  byte_range b ->
  0 <= Z.shiftr b 4 < 16 /\ 0 <= Z.land b 15 < 16 /\
  16 * Z.shiftr b 4 + Z.land b 15 = b.
Proof.
  unfold byte_range. intros Hb.
  rewrite Z.shiftr_div_pow2 by lia.
  change 15 with (Z.ones 4). rewrite Z.land_ones by lia.
  change (2 ^ 4) with 16. zlia.
Qed.

(** Scanning the lower-case hex spelling of a byte string gives the bytes
    back. *)
Lemma fromhex_loop_bytes_hex (bs : list Z) :
  Forall byte_range bs ->
  fromhex_loop (bytes_hex bs) = Return bs /\
  forallb is_hex_digit (bytes_hex bs) = true /\
  List.length (bytes_hex bs) = (2 * List.length bs)%nat.
Proof.
  induction 1 as [|b bs Hb _ (IH1 & IH2 & IH3)]; [now repeat split|].
  destruct (byte_nibbles b Hb) as (Hhi & Hlo & Hsum).
  destruct (hexdigit_props _ Hhi) as [Hh1 Hv1].
  destruct (hexdigit_props _ Hlo) as [Hh2 Hv2].
  destruct (hex_digit_props _ Hh1) as (Hs1 & _).
  cbn [bytes_hex]. repeat split.
  - cbn [fromhex_loop]. rewrite Hs1, Hv1, Hv2.
    destruct (Z.geb_spec (Z.shiftr b 4) 16); [lia|].
    destruct (Z.geb_spec (Z.land b 15) 16); [lia|].
    rewrite IH1. cbn [bind]. rewrite shiftl4_add by lia. now rewrite Hsum.
  - cbn [forallb]. now rewrite Hh1, Hh2, IH2.
  - cbn [List.length]. lia.
Qed.

Lemma sum_shifted_extract (v : Z) (n : nat) :
  forall k : nat,
    sum_shifted 0
      (map (fun i => Z.land (Z.shiftr v (Z.of_nat i * 8)) 255) (seq k n))
    = (v / 2 ^ (8 * Z.of_nat k)) mod 2 ^ (8 * Z.of_nat n).
Proof.
  induction n as [|n IH]; intros k.
  - cbn [seq map sum_shifted]. change (2 ^ (8 * Z.of_nat 0)) with 1.
    now rewrite Z.mod_1_r.
  - cbn [seq map]. rewrite sum_shifted_cons, IH, byte_extract.
    rewrite !pow2_bytes_succ.
    assert (0 < 2 ^ (8 * Z.of_nat k)) by (apply Z.pow_pos_nonneg; lia).
    assert (0 < 2 ^ (8 * Z.of_nat n)) by (apply Z.pow_pos_nonneg; lia).
    rewrite (Z.mul_comm 256 (2 ^ (8 * Z.of_nat k))).
    rewrite <- Z.div_div by lia.
    now rewrite Z.rem_mul_r by lia.
Qed.

(** X7: the decoder reaches every signed 64-bit integer: each one is the
    result of some valid token. *)
Theorem hex_le_to_int64_surjective (v : Z) :
  int64 v ->
  exists t, valid_token t /\ hex_le_to_int64 t = Return v.
Proof.
  intros Hv.
  set (bs := map (fun i => Z.land (Z.shiftr v (Z.of_nat i * 8)) 255)
                 (seq 0 8)).
  assert (Hb : Forall byte_range bs).
  { apply Forall_forall. intros b Hin. apply in_map_iff in Hin.
    destruct Hin as (i & <- & _). rewrite byte_extract.
    apply Z.mod_pos_bound. lia. }
  assert (Hlen : List.length bs = 8%nat) by reflexivity.
  destruct (fromhex_loop_bytes_hex bs Hb) as (Hs & Hhex & Hl).
  exists (bytes_hex bs).
  assert (Hvalid : valid_token (bytes_hex bs)).
  { split; [rewrite Hl, Hlen; reflexivity | exact Hhex]. }
  split; [exact Hvalid|].
  unfold hex_le_to_int64, bytes_fromhex, len.
  rewrite Hl, Hlen. change (negb (Z.of_nat (2 * 8) =? 16)) with false.
  cbv iota. rewrite (hex_digits_ascii _ Hhex), Hs. cbn [bind]. f_equal.
  unfold int_from_bytes_little, len. rewrite Hlen.
  change (Nat.eqb 8 0) with false.
  assert (Hlast : last bs 0 = (v / 2 ^ 56) mod 256)
    by (change (last bs 0)
          with (Z.land (Z.shiftr v (Z.of_nat 7 * 8)) 255);
        now rewrite byte_extract).
  assert (Hlr : byte_range (last bs 0))
    by (rewrite Hlast; apply Z.mod_pos_bound; lia).
  rewrite (land_128 _ Hlr), Hlast.
  unfold bs. rewrite sum_shifted_extract.
  rewrite Z.shiftl_mul_pow2, Z.mul_1_l by lia.
  change (2 ^ (8 * Z.of_nat 0)) with 1. rewrite Z.div_1_r.
  change (2 ^ (8 * Z.of_nat 8)) with 18446744073709551616.
  change (2 ^ 56) with 72057594037927936.
  unfold int64 in Hv. change (2 ^ 63) with 9223372036854775808 in Hv.
  cbn [andb negb].
  destruct (Z.ltb_spec ((v / 72057594037927936) mod 256) 128);
    cbn [negb]; zlia.
Qed.

Lemma hex_le_to_int64_surjective_witness :
  int64 (-2) /\
  exists t, valid_token t /\ hex_le_to_int64 t = Return (-2).
Proof.
  assert (H : int64 (-2))
    by (unfold int64; vm_compute; intuition discriminate).
  split; [exact H|].
  exact (hex_le_to_int64_surjective _ H).
Defined.

(** ** Further properties of the epoch-offset converter *)

Lemma postgres_timestamptz_to_datetime_returns (offset : Z) (d : datetime) :
  postgres_timestamptz_to_datetime offset = Return d ->
  representable offset /\ wf_datetime d /\
  instant d = instant postgres_epoch + offset /\ tz d = Some utc.
Proof.
  intros H.
  destruct (representable_dec offset) as [Hrep | Hrep].
  - destruct (postgres_timestamptz_to_datetime_representable offset Hrep)
      as (d' & E & Hw & Hi & Hz & _).
    rewrite E in H. injection H as <-.
    split; [exact Hrep|]. split; [exact Hw|]. split; [exact Hi | exact Hz].
  - rewrite (postgres_timestamptz_to_datetime_overflow offset Hrep) in H.
    discriminate.
Qed.

Lemma time_of_day_fields (q : Z) :
  (q mod 86400) / 3600 = (q / 3600) mod 24 /\
  (q mod 86400) mod 3600 / 60 = (q / 60) mod 60 /\
  (q mod 86400) mod 3600 mod 60 = q mod 60.
Proof. repeat split; zlia. Qed.

Lemma offset_quotients (offset : Z) :
  offset / 1000000 / 86400 = offset / 86400000000 /\
  offset / 1000000 / 3600 = offset / 3600000000 /\
  offset / 1000000 / 60 = offset / 60000000.
Proof. repeat split; rewrite Z.div_div by lia; reflexivity. Qed.

Lemma day_shift_fields (offset k : Z) :
  (offset + 86400000000 * k) / 86400000000 = offset / 86400000000 + k /\
  ((offset + 86400000000 * k) / 3600000000) mod 24
  = (offset / 3600000000) mod 24 /\
  ((offset + 86400000000 * k) / 60000000) mod 60
  = (offset / 60000000) mod 60 /\
  ((offset + 86400000000 * k) / 1000000) mod 60
  = (offset / 1000000) mod 60 /\
  (offset + 86400000000 * k) mod 1000000 = offset mod 1000000.
Proof. repeat split; zlia. Qed.

Lemma postgres_timestamptz_to_datetime_fields_of (offset : Z) (d : datetime) :
  postgres_timestamptz_to_datetime offset = Return d ->
  toordinal d = 730120 + offset / 86400000000 /\
  hour d = (offset / 3600000000) mod 24 /\
  minute d = (offset / 60000000) mod 60 /\
  second d = (offset / 1000000) mod 60 /\
  microsecond d = offset mod 1000000.
Proof.
  rewrite postgres_timestamptz_to_datetime_eq. cbv zeta.
  destruct ((0 <? _) && (_ <=? _)); [|discriminate].
  destruct (_ord2ymd (730120 + offset / 1000000 / 86400))
    as [[y m] dd] eqn:E.
  destruct (ord2ymd_spec _ _ _ _ E) as (_ & _ & Hord & _).
  intros [= <-]. unfold toordinal.
  cbn [year month day hour minute second microsecond].
  rewrite Hord. clear E Hord.
  destruct (time_of_day_fields (offset / 1000000)) as (-> & -> & ->).
  destruct (offset_quotients offset) as (-> & -> & ->).
  now repeat split.
Qed.

(** X8: the converter returns a datetime exactly for the offsets from
    -63082281600000000 to 252455615999999999; the two ends give
    0001-01-01T00:00:00 and 9999-12-31T23:59:59.999999 UTC, and every other
    offset raises OverflowError. *)
Theorem postgres_timestamptz_to_datetime_bounds (offset : Z) :
  ((exists d, postgres_timestamptz_to_datetime offset = Return d)
   <-> -63082281600000000 <= offset <= 252455615999999999) /\
  (~ -63082281600000000 <= offset <= 252455615999999999 ->
   postgres_timestamptz_to_datetime offset = Raise OverflowError) /\
  postgres_timestamptz_to_datetime (-63082281600000000)
  = Return (mk_datetime 1 1 1 0 0 0 0 (Some utc)) /\
  postgres_timestamptz_to_datetime 252455615999999999
  = Return (mk_datetime 9999 12 31 23 59 59 999999 (Some utc)).
Proof.
  assert (Hrep : representable offset
                 <-> -63082281600000000 <= offset <= 252455615999999999).
  { unfold representable.
    change (instant datetime_min) with 86400000000.
    change (instant postgres_epoch) with 63082368000000000.
    change (instant datetime_max) with 315537983999999999.
    lia. }
  split; [split|split; [|split]].
  - intros [d H]. apply Hrep.
    now apply (postgres_timestamptz_to_datetime_returns offset d).
  - intros H. apply Hrep in H.
    destruct (postgres_timestamptz_to_datetime_representable offset H)
      as (d & E & _).
    now exists d.
  - intros H. apply postgres_timestamptz_to_datetime_overflow.
    now rewrite Hrep.
  - vm_compute. reflexivity.
  - vm_compute. reflexivity.
Qed.

(** X9: the datetimes returned for two offsets compare as the offsets do:
    [datetime.__lt__] returns True exactly when the first offset is the
    smaller one, and the two datetimes are equal only for equal offsets. *)
Theorem postgres_timestamptz_to_datetime_order (a b : Z) (da db : datetime) :
  postgres_timestamptz_to_datetime a = Return da ->
  postgres_timestamptz_to_datetime b = Return db ->
  datetime_lt da db = Return (a <? b) /\ (da = db <-> a = b).
Proof.
  intros Ha Hb.
  destruct (postgres_timestamptz_to_datetime_returns a da Ha)
    as (_ & Wa & Ia & Za).
  destruct (postgres_timestamptz_to_datetime_returns b db Hb)
    as (_ & Wb & Ib & Zb).
  split.
  - unfold datetime_lt, datetime_cmp. rewrite Za, Zb. cbn [tzinfo_is bind].
    rewrite (tuple_cmp_instant da db Wa Wb), Ia, Ib.
    destruct (Z.compare_spec (instant postgres_epoch + a)
                             (instant postgres_epoch + b));
      destruct (Z.ltb_spec a b); try reflexivity; lia.
  - split.
    + intros ->. lia.
    + intros ->. rewrite Ha in Hb. now injection Hb.
Qed.

Lemma postgres_timestamptz_to_datetime_order_witness :
  postgres_timestamptz_to_datetime 0
  = Return (mk_datetime 2000 1 1 0 0 0 0 (Some utc)) /\
  postgres_timestamptz_to_datetime (-1)
  = Return (mk_datetime 1999 12 31 23 59 59 999999 (Some utc)) /\
  datetime_lt (mk_datetime 2000 1 1 0 0 0 0 (Some utc))
              (mk_datetime 1999 12 31 23 59 59 999999 (Some utc))
  = Return (0 <? -1) /\
  (mk_datetime 2000 1 1 0 0 0 0 (Some utc)
   = mk_datetime 1999 12 31 23 59 59 999999 (Some utc) <-> 0 = -1).
Proof.
  assert (H1 : postgres_timestamptz_to_datetime 0
               = Return (mk_datetime 2000 1 1 0 0 0 0 (Some utc)))
    by (vm_compute; reflexivity).
  assert (H2 : postgres_timestamptz_to_datetime (-1)
               = Return (mk_datetime 1999 12 31 23 59 59 999999 (Some utc)))
    by (vm_compute; reflexivity).
  split; [exact H1|]. split; [exact H2|].
  exact (postgres_timestamptz_to_datetime_order _ _ _ _ H1 H2).
Defined.

(** X10: the fields of the returned datetime are the floor quotients of the
    offset: the day is the epoch's day plus [offset // 86400000000], and
    hour, minute, second and microsecond are [offset // 3600000000 % 24],
    [offset // 60000000 % 60], [offset // 1000000 % 60] and
    [offset % 1000000], for negative offsets too. *)
Theorem postgres_timestamptz_to_datetime_fields (offset : Z) (d : datetime) :
  postgres_timestamptz_to_datetime offset = Return d ->
  toordinal d = toordinal postgres_epoch + offset / 86400000000 /\
  hour d = (offset / 3600000000) mod 24 /\
  minute d = (offset / 60000000) mod 60 /\
  second d = (offset / 1000000) mod 60 /\
  microsecond d = offset mod 1000000.
Proof. exact (postgres_timestamptz_to_datetime_fields_of offset d). Qed.

Lemma postgres_timestamptz_to_datetime_fields_witness :
  postgres_timestamptz_to_datetime (-1)
  = Return (mk_datetime 1999 12 31 23 59 59 999999 (Some utc)) /\
  toordinal (mk_datetime 1999 12 31 23 59 59 999999 (Some utc))
  = toordinal postgres_epoch + -1 / 86400000000 /\
  hour (mk_datetime 1999 12 31 23 59 59 999999 (Some utc))
  = (-1 / 3600000000) mod 24 /\
  minute (mk_datetime 1999 12 31 23 59 59 999999 (Some utc))
  = (-1 / 60000000) mod 60 /\
  second (mk_datetime 1999 12 31 23 59 59 999999 (Some utc))
  = (-1 / 1000000) mod 60 /\
  microsecond (mk_datetime 1999 12 31 23 59 59 999999 (Some utc))
  = -1 mod 1000000.
Proof.
  assert (H : postgres_timestamptz_to_datetime (-1)
              = Return (mk_datetime 1999 12 31 23 59 59 999999 (Some utc)))
    by (vm_compute; reflexivity).
  split; [exact H|].
  exact (postgres_timestamptz_to_datetime_fields _ _ H).
Defined.

(** X11: shifting the offset by whole days changes the date only: when the
    converter returns for [offset] and for [offset] plus [k] days of
    microseconds, the two datetimes have the same hour, minute, second and
    microsecond, and their days are [k] apart. *)
Theorem postgres_timestamptz_to_datetime_day_shift
  (offset k : Z) (d d' : datetime) :
  postgres_timestamptz_to_datetime offset = Return d ->
  postgres_timestamptz_to_datetime (offset + 86400000000 * k) = Return d' ->
  toordinal d' = toordinal d + k /\
  hour d' = hour d /\ minute d' = minute d /\
  second d' = second d /\ microsecond d' = microsecond d.
Proof.
  intros H H'.
  destruct (postgres_timestamptz_to_datetime_fields_of _ _ H)
    as (-> & -> & -> & -> & ->).
  destruct (postgres_timestamptz_to_datetime_fields_of _ _ H')
    as (-> & -> & -> & -> & ->).
  destruct (day_shift_fields offset k) as (-> & -> & -> & -> & ->).
  repeat split. lia.
Qed.

Lemma postgres_timestamptz_to_datetime_day_shift_witness :
  postgres_timestamptz_to_datetime (-1)
  = Return (mk_datetime 1999 12 31 23 59 59 999999 (Some utc)) /\
  postgres_timestamptz_to_datetime (-1 + 86400000000 * 60)
  = Return (mk_datetime 2000 2 29 23 59 59 999999 (Some utc)) /\
  toordinal (mk_datetime 2000 2 29 23 59 59 999999 (Some utc))
  = toordinal (mk_datetime 1999 12 31 23 59 59 999999 (Some utc)) + 60 /\
  hour (mk_datetime 2000 2 29 23 59 59 999999 (Some utc))
  = hour (mk_datetime 1999 12 31 23 59 59 999999 (Some utc)) /\
  minute (mk_datetime 2000 2 29 23 59 59 999999 (Some utc))
  = minute (mk_datetime 1999 12 31 23 59 59 999999 (Some utc)) /\
  second (mk_datetime 2000 2 29 23 59 59 999999 (Some utc))
  = second (mk_datetime 1999 12 31 23 59 59 999999 (Some utc)) /\
  microsecond (mk_datetime 2000 2 29 23 59 59 999999 (Some utc))
  = microsecond (mk_datetime 1999 12 31 23 59 59 999999 (Some utc)).
Proof.
  assert (H1 : postgres_timestamptz_to_datetime (-1)
               = Return (mk_datetime 1999 12 31 23 59 59 999999 (Some utc)))
    by (vm_compute; reflexivity).
  assert (H2 : postgres_timestamptz_to_datetime (-1 + 86400000000 * 60)
               = Return (mk_datetime 2000 2 29 23 59 59 999999 (Some utc)))
    by (vm_compute; reflexivity).
  split; [exact H1|]. split; [exact H2|].
  exact (postgres_timestamptz_to_datetime_day_shift _ _ _ _ H1 H2).
Defined.
